(** * aisiritori: the shiritori rule engine and the turn orchestrator

    A shallow embedding of [app/shiritori.py] and of the request handler
    [ai_move] of [app/main.py].

    Python strings are sequences of Unicode code points: a character is
    its code point (a [Z]), a [str] is a list of them, and a Python
    one-character string is a character or a singleton list.  [set] is
    stdpp's [gset], [dict] is stdpp's [gmap]. *)

From Stdlib Require Import ZArith Lia ZifyBool.
From stdpp Require Import gmap list.

Open Scope Z_scope.

Abbreviation str := (list Z).

(** ** Python built-ins used by the source *)
Module Py.

(** Truth value of a [str] and of an [Optional[str]]. *)
Definition truthy (s : str) : bool :=
  match s with [] => false | _ :: _ => true end.

Definition truthy_opt (o : option str) : bool :=
  match o with None => false | Some s => truthy s end.

(** [ch.isspace()] for one character: CPython's white space table
    (general category Zs, or bidirectional class WS, B or S). *)
Definition isspace (ch : Z) : bool :=
  ((0x0009 <=? ch) && (ch <=? 0x000D))
  || ((0x001C <=? ch) && (ch <=? 0x0020))
  || (ch =? 0x0085) || (ch =? 0x00A0) || (ch =? 0x1680)
  || ((0x2000 <=? ch) && (ch <=? 0x200A))
  || (ch =? 0x2028) || (ch =? 0x2029) || (ch =? 0x202F)
  || (ch =? 0x205F) || (ch =? 0x3000).

Fixpoint lstrip (s : str) : str :=
  match s with
  | [] => []
  | ch :: rest => if isspace ch then lstrip rest else s
  end.

Definition rstrip (s : str) : str := rev (lstrip (rev s)).

(** [s.strip()] *)
Definition strip (s : str) : str := rstrip (lstrip s).

(** [s.split()]: the maximal runs of characters that are not white
    space.  [cur] is the run being read, [None] between two runs. *)
Fixpoint split_from (cur : option str) (s : str) : list str :=
  match s with
  | [] => match cur with None => [] | Some w => [w] end
  | ch :: rest =>
      if isspace ch
      then match cur with
           | None => split_from None rest
           | Some w => w :: split_from None rest
           end
      else split_from (Some (default [] cur ++ [ch])) rest
  end.

Definition split (s : str) : list str := split_from None s.

(** [s.endswith(suffix)] for a one-character suffix. *)
Definition endswith (s : str) (ch : Z) : bool :=
  match last s with
  | Some c => c =? ch
  | None => false
  end.

End Py.

(** ** app/shiritori.py *)

(** [ぁ] *)
Definition ch_small_a : Z := 0x3041.
(** [ゖ] *)
Definition ch_small_ke : Z := 0x3096.
(** [ァ] *)
Definition ch_kata_small_a : Z := 0x30A1.
(** [ヺ] *)
Definition ch_kata_vo : Z := 0x30FA.
(** [ー] *)
Definition ch_prolong : Z := 0x30FC.
(** [ん] *)
Definition ch_n : Z := 0x3093.
(** [line feed] *)
Definition ch_newline : Z := 0x000A.

(** The character class [[ぁ-ゖー]] of [_HIRAGANA_RANGE]. *)
Definition in_hiragana_class (ch : Z) : bool :=
  ((ch_small_a <=? ch) && (ch <=? ch_small_ke)) || (ch =? ch_prolong).

(** [_SMALL_TO_LARGE] *)
Definition _SMALL_TO_LARGE : gmap Z Z :=
  list_to_map
    [ (0x3041, 0x3042) (* ぁ -> あ *); (0x3043, 0x3044) (* ぃ -> い *);
      (0x3045, 0x3046) (* ぅ -> う *); (0x3047, 0x3048) (* ぇ -> え *);
      (0x3049, 0x304A) (* ぉ -> お *); (0x3063, 0x3064) (* っ -> つ *);
      (0x3083, 0x3084) (* ゃ -> や *); (0x3085, 0x3086) (* ゅ -> ゆ *);
      (0x3087, 0x3088) (* ょ -> よ *); (0x308E, 0x308F) (* ゎ -> わ *) ].

(** [_SMALL_TO_LARGE.get(ch, ch)] *)
Definition small_to_large (ch : Z) : Z :=
  default ch (_SMALL_TO_LARGE !! ch).

(** [ord("ぁ") - ord("ァ")] *)
Definition _KATAKANA_TO_HIRAGANA_OFFSET : Z := ch_small_a - ch_kata_small_a.

(** One round of the loop of [to_hiragana]: [out] is the list built so
    far, [ch] the character read. *)
Definition to_hiragana_step (out : str) (ch : Z) : str :=
  let code := ch in
  if Py.isspace ch then out
  else if ((ch_small_a <=? ch) && (ch <=? ch_small_ke)) || (ch =? ch_prolong)
  then out ++ [ch]
  else if ((ch_kata_small_a <=? ch) && (ch <=? ch_kata_vo)) || (ch =? ch_prolong)
  then (if ch =? ch_prolong then out ++ [ch]
        else out ++ [code + _KATAKANA_TO_HIRAGANA_OFFSET])
  else out.

Definition to_hiragana (s : str) : str :=
  fold_left to_hiragana_step (Py.strip s) [].

(** [re.match(r"^[ぁ-ゖー]+$", s)]: one or more characters of the class
    up to the end of the string, where [$] also matches just before a
    line feed that ends the string.  [hiragana_rest] reads the string
    after the first character of the class. *)
Fixpoint hiragana_rest (s : str) : bool :=
  match s with
  | [] => true
  | ch :: rest =>
      if in_hiragana_class ch then hiragana_rest rest
      else (ch =? ch_newline) && negb (Py.truthy rest)
  end.

Definition is_hiragana_only (s : str) : bool :=
  match s with
  | [] => false
  | ch :: rest => in_hiragana_class ch && hiragana_rest rest
  end.

Definition strip_trailing_prolong_mark (s : str) : str :=
  if Py.endswith s ch_prolong then removelast s else s.

Definition normalize_last_char (s : str) : option str :=
  if negb (Py.truthy s) then None
  else
    let t := strip_trailing_prolong_mark s in
    if negb (Py.truthy t) then None
    else
      match last t with
      | Some last_ch => Some [small_to_large last_ch]
      | None => None
      end.

Definition violates_end_n (s : str) : bool :=
  let t := strip_trailing_prolong_mark s in
  if Py.truthy t then Py.endswith t ch_n else false.

(** *** The messages of the two validators

    Each constant is the code point sequence of the literal quoted
    above it. *)

(** [ことばを入力してね] *)
Definition msg_empty : str :=
  [0x3053; 0x3068; 0x3070; 0x3092; 0x5165; 0x529B; 0x3057; 0x3066; 0x306D].

(** [ひらがなだけで入力してね] *)
Definition msg_not_hiragana : str :=
  [0x3072; 0x3089; 0x304C; 0x306A; 0x3060; 0x3051; 0x3067; 0x5165; 0x529B;
   0x3057; 0x3066; 0x306D].

(** [同じことばは使えないよ] *)
Definition msg_repeated : str :=
  [0x540C; 0x3058; 0x3053; 0x3068; 0x3070; 0x306F; 0x4F7F; 0x3048; 0x306A;
   0x3044; 0x3088].

(** [『ん』で終わったのでまけだよ] *)
Definition msg_end_n : str :=
  [0x300E; 0x3093; 0x300F; 0x3067; 0x7D42; 0x308F; 0x3063; 0x305F; 0x306E;
   0x3067; 0x307E; 0x3051; 0x3060; 0x3088].

(** [OK] *)
Definition msg_OK : str :=
  [0x004F; 0x004B].

(** [AIのことばがひらがなじゃないよ] *)
Definition msg_ai_not_hiragana : str :=
  [0x0041; 0x0049; 0x306E; 0x3053; 0x3068; 0x3070; 0x304C; 0x3072; 0x3089;
   0x304C; 0x306A; 0x3058; 0x3083; 0x306A; 0x3044; 0x3088].

(** [AIの先頭文字が合っていないよ] *)
Definition msg_ai_head : str :=
  [0x0041; 0x0049; 0x306E; 0x5148; 0x982D; 0x6587; 0x5B57; 0x304C; 0x5408;
   0x3063; 0x3066; 0x3044; 0x306A; 0x3044; 0x3088].

(** [AIが同じことばを使ったよ] *)
Definition msg_ai_repeated : str :=
  [0x0041; 0x0049; 0x304C; 0x540C; 0x3058; 0x3053; 0x3068; 0x3070; 0x3092;
   0x4F7F; 0x3063; 0x305F; 0x3088].

(** [AIが『ん』で終わったよ] *)
Definition msg_ai_end_n : str :=
  [0x0041; 0x0049; 0x304C; 0x300E; 0x3093; 0x300F; 0x3067; 0x7D42; 0x308F;
   0x3063; 0x305F; 0x3088].

(** The f-string [『{expected_head}』からはじめてね] *)
Definition msg_wrong_head (expected_head : str) : str :=
  [0x300E] ++ expected_head
  ++ [0x300F; 0x304B; 0x3089; 0x306F; 0x3058; 0x3081; 0x3066; 0x306D].

(** [w[0]], when the word has a first character. *)
Definition first_char (w : str) : option Z := head w.

Definition validate_user_move
    (user_word : str) (expected_head : option str) (used : gset str)
  : bool * str :=
  let w := to_hiragana user_word in
  if negb (Py.truthy w) then (false, msg_empty)
  else if negb (is_hiragana_only w) then (false, msg_not_hiragana)
  else if bool_decide (w ∈ used) then (false, msg_repeated)
  else if violates_end_n w then (false, msg_end_n)
  else
    match expected_head with
    | Some required =>
        if Py.truthy required
        then
          match first_char w with
          | Some c =>
              let head := [small_to_large c] in
              if bool_decide (head ≠ required)
              then (false, msg_wrong_head required)
              else (true, msg_OK)
          | None => (true, msg_OK) (* not reached: [w] is not empty here *)
          end
        else (true, msg_OK)
    | None => (true, msg_OK)
    end.

Definition validate_ai_move
    (ai_word : str) (required_head : str) (used : gset str) : bool * str :=
  let w := to_hiragana ai_word in
  if negb (Py.truthy w) || negb (is_hiragana_only w)
  then (false, msg_ai_not_hiragana)
  else
    match first_char w with
    | Some c =>
        let head := [small_to_large c] in
        if bool_decide (head ≠ required_head) then (false, msg_ai_head)
        else if bool_decide (w ∈ used) then (false, msg_ai_repeated)
        else if violates_end_n w then (false, msg_ai_end_n)
        else (true, msg_OK)
    | None => (false, msg_ai_not_hiragana) (* not reached: [w] is not empty *)
    end.

Definition next_required_head (word : str) : option str :=
  let last := normalize_last_char word in
  last.

(** ** app/main.py *)

(** [FALLBACK_DICT] *)
Definition FALLBACK_DICT : gmap str (list str) :=
  list_to_map [
    (* あ: あり あめ あさ *)
    ([0x3042],
     [[0x3042; 0x308A]; [0x3042; 0x3081]; [0x3042; 0x3055]]);
    (* い: いぬ いけ いか *)
    ([0x3044],
     [[0x3044; 0x306C]; [0x3044; 0x3051]; [0x3044; 0x304B]]);
    (* う: うし うみ うた *)
    ([0x3046],
     [[0x3046; 0x3057]; [0x3046; 0x307F]; [0x3046; 0x305F]]);
    (* え: えび えき えのぐ *)
    ([0x3048],
     [[0x3048; 0x3073]; [0x3048; 0x304D]; [0x3048; 0x306E; 0x3050]]);
    (* お: おに おか おゆ *)
    ([0x304A],
     [[0x304A; 0x306B]; [0x304A; 0x304B]; [0x304A; 0x3086]]);
    (* か: かめ かさ からす *)
    ([0x304B],
     [[0x304B; 0x3081]; [0x304B; 0x3055]; [0x304B; 0x3089; 0x3059]]);
    (* き: きつね きのこ きりん *)
    ([0x304D],
     [[0x304D; 0x3064; 0x306D]; [0x304D; 0x306E; 0x3053];
      [0x304D; 0x308A; 0x3093]]);
    (* く: くま くき くるま *)
    ([0x304F],
     [[0x304F; 0x307E]; [0x304F; 0x304D]; [0x304F; 0x308B; 0x307E]]);
    (* け: けむし けしき けが *)
    ([0x3051],
     [[0x3051; 0x3080; 0x3057]; [0x3051; 0x3057; 0x304D]; [0x3051; 0x304C]]);
    (* こ: ことり こめ こおり *)
    ([0x3053],
     [[0x3053; 0x3068; 0x308A]; [0x3053; 0x3081]; [0x3053; 0x304A; 0x308A]]);
    (* さ: さかな さる さくら *)
    ([0x3055],
     [[0x3055; 0x304B; 0x306A]; [0x3055; 0x308B]; [0x3055; 0x304F; 0x3089]]);
    (* し: しろ しお しんぶん *)
    ([0x3057],
     [[0x3057; 0x308D]; [0x3057; 0x304A]; [0x3057; 0x3093; 0x3076; 0x3093]]);
    (* す: すいか すずめ すな *)
    ([0x3059],
     [[0x3059; 0x3044; 0x304B]; [0x3059; 0x305A; 0x3081]; [0x3059; 0x306A]]);
    (* せ: せみ せかい せんべい *)
    ([0x305B],
     [[0x305B; 0x307F]; [0x305B; 0x304B; 0x3044];
      [0x305B; 0x3093; 0x3079; 0x3044]]);
    (* そ: そら そば そり *)
    ([0x305D],
     [[0x305D; 0x3089]; [0x305D; 0x3070]; [0x305D; 0x308A]]);
    (* た: たまご たに たこ *)
    ([0x305F],
     [[0x305F; 0x307E; 0x3054]; [0x305F; 0x306B]; [0x305F; 0x3053]]);
    (* ち: ちず ちから ちくわ *)
    ([0x3061],
     [[0x3061; 0x305A]; [0x3061; 0x304B; 0x3089]; [0x3061; 0x304F; 0x308F]]);
    (* つ: つき つばさ つち *)
    ([0x3064],
     [[0x3064; 0x304D]; [0x3064; 0x3070; 0x3055]; [0x3064; 0x3061]]);
    (* て: てがみ てぶくろ てんぷら *)
    ([0x3066],
     [[0x3066; 0x304C; 0x307F]; [0x3066; 0x3076; 0x304F; 0x308D];
      [0x3066; 0x3093; 0x3077; 0x3089]]);
    (* と: とら とけい とまと *)
    ([0x3068],
     [[0x3068; 0x3089]; [0x3068; 0x3051; 0x3044]; [0x3068; 0x307E; 0x3068]]);
    (* な: なす なべ なみ *)
    ([0x306A],
     [[0x306A; 0x3059]; [0x306A; 0x3079]; [0x306A; 0x307F]]);
    (* に: にわ にく にじ *)
    ([0x306B],
     [[0x306B; 0x308F]; [0x306B; 0x304F]; [0x306B; 0x3058]]);
    (* ぬ: ぬいぐるみ ぬの ぬま *)
    ([0x306C],
     [[0x306C; 0x3044; 0x3050; 0x308B; 0x307F]; [0x306C; 0x306E];
      [0x306C; 0x307E]]);
    (* ね: ねこ ねぎ ねずみ *)
    ([0x306D],
     [[0x306D; 0x3053]; [0x306D; 0x304E]; [0x306D; 0x305A; 0x307F]]);
    (* の: のり のはら のこぎり *)
    ([0x306E],
     [[0x306E; 0x308A]; [0x306E; 0x306F; 0x3089];
      [0x306E; 0x3053; 0x304E; 0x308A]]);
    (* は: はさみ はな はっぱ *)
    ([0x306F],
     [[0x306F; 0x3055; 0x307F]; [0x306F; 0x306A]; [0x306F; 0x3063; 0x3071]]);
    (* ひ: ひこうき ひつじ ひみつ *)
    ([0x3072],
     [[0x3072; 0x3053; 0x3046; 0x304D]; [0x3072; 0x3064; 0x3058];
      [0x3072; 0x307F; 0x3064]]);
    (* ふ: ふね ふく ふとん *)
    ([0x3075],
     [[0x3075; 0x306D]; [0x3075; 0x304F]; [0x3075; 0x3068; 0x3093]]);
    (* へ: へび へや へいたい *)
    ([0x3078],
     [[0x3078; 0x3073]; [0x3078; 0x3084]; [0x3078; 0x3044; 0x305F; 0x3044]]);
    (* ほ: ほし ほね ほたる *)
    ([0x307B],
     [[0x307B; 0x3057]; [0x307B; 0x306D]; [0x307B; 0x305F; 0x308B]]);
    (* ま: まくら まめ まど *)
    ([0x307E],
     [[0x307E; 0x304F; 0x3089]; [0x307E; 0x3081]; [0x307E; 0x3069]]);
    (* み: みず みかん みち *)
    ([0x307F],
     [[0x307F; 0x305A]; [0x307F; 0x304B; 0x3093]; [0x307F; 0x3061]]);
    (* む: むし むぎ むね *)
    ([0x3080],
     [[0x3080; 0x3057]; [0x3080; 0x304E]; [0x3080; 0x306D]]);
    (* め: めがね めだか めんたいこ *)
    ([0x3081],
     [[0x3081; 0x304C; 0x306D]; [0x3081; 0x3060; 0x304B];
      [0x3081; 0x3093; 0x305F; 0x3044; 0x3053]]);
    (* も: もも もり もち *)
    ([0x3082],
     [[0x3082; 0x3082]; [0x3082; 0x308A]; [0x3082; 0x3061]]);
    (* や: やま やさい やぎ *)
    ([0x3084],
     [[0x3084; 0x307E]; [0x3084; 0x3055; 0x3044]; [0x3084; 0x304E]]);
    (* ゆ: ゆき ゆめ ゆび *)
    ([0x3086],
     [[0x3086; 0x304D]; [0x3086; 0x3081]; [0x3086; 0x3073]]);
    (* よ: ようふく よる よこ *)
    ([0x3088],
     [[0x3088; 0x3046; 0x3075; 0x304F]; [0x3088; 0x308B]; [0x3088; 0x3053]]);
    (* ら: らっこ らっぱ らいおん *)
    ([0x3089],
     [[0x3089; 0x3063; 0x3053]; [0x3089; 0x3063; 0x3071];
      [0x3089; 0x3044; 0x304A; 0x3093]]);
    (* り: りす りんご りょうり *)
    ([0x308A],
     [[0x308A; 0x3059]; [0x308A; 0x3093; 0x3054];
      [0x308A; 0x3087; 0x3046; 0x308A]]);
    (* る: るす るつぼ るーれっと *)
    ([0x308B],
     [[0x308B; 0x3059]; [0x308B; 0x3064; 0x307C];
      [0x308B; 0x30FC; 0x308C; 0x3063; 0x3068]]);
    (* れ: れいぞうこ れもん れんこん *)
    ([0x308C],
     [[0x308C; 0x3044; 0x305E; 0x3046; 0x3053]; [0x308C; 0x3082; 0x3093];
      [0x308C; 0x3093; 0x3053; 0x3093]]);
    (* ろ: ろうそく ろぼっと ろてんぶろ *)
    ([0x308D],
     [[0x308D; 0x3046; 0x305D; 0x304F]; [0x308D; 0x307C; 0x3063; 0x3068];
      [0x308D; 0x3066; 0x3093; 0x3076; 0x308D]]);
    (* わ: わに わごむ わた *)
    ([0x308F],
     [[0x308F; 0x306B]; [0x308F; 0x3054; 0x3080]; [0x308F; 0x305F]]) ].

Definition MAX_TURNS : Z := 20.

Record MoveRequest := {
  req_history : list str;
  req_user_word : str
}.

Record MoveResponse := {
  ok : bool;
  message : str;
  user_word : option str;
  ai_word : option str;
  next_head_for_user : option str;
  used : list str;
  turn_count : Z;
  game_over : bool;
  winner : option str
}.

(** What a request ends in: the response returned, or the
    [HTTPException] raised. *)
Inductive Outcome :=
| Returned (resp : MoveResponse)
| HTTPException (status_code : Z) (detail : str).

(** [user] *)
Definition winner_user : str :=
  [0x0075; 0x0073; 0x0065; 0x0072].

(** [ai] *)
Definition winner_ai : str :=
  [0x0061; 0x0069].

(** [none] *)
Definition winner_none : str :=
  [0x006E; 0x006F; 0x006E; 0x0065].

(** [20かいまでだよ。さいしょからやりなおしてね] *)
Definition msg_round_limit : str :=
  [0x0032; 0x0030; 0x304B; 0x3044; 0x307E; 0x3067; 0x3060; 0x3088; 0x3002;
   0x3055; 0x3044; 0x3057; 0x3087; 0x304B; 0x3089; 0x3084; 0x308A; 0x306A;
   0x304A; 0x3057; 0x3066; 0x306D].

(** [単語が空です] *)
Definition msg_empty_word_detail : str :=
  [0x5358; 0x8A9E; 0x304C; 0x7A7A; 0x3067; 0x3059].

(** [AIはこたえられなかったよ。あなたのかち！] *)
Definition msg_ai_no_answer : str :=
  [0x0041; 0x0049; 0x306F; 0x3053; 0x305F; 0x3048; 0x3089; 0x308C; 0x306A;
   0x304B; 0x3063; 0x305F; 0x3088; 0x3002; 0x3042; 0x306A; 0x305F; 0x306E;
   0x304B; 0x3061; 0xFF01].

(** [AIがルールをまもれなかったよ。あなたのかち！] *)
Definition msg_ai_broke_rules : str :=
  [0x0041; 0x0049; 0x304C; 0x30EB; 0x30FC; 0x30EB; 0x3092; 0x307E; 0x3082;
   0x308C; 0x306A; 0x304B; 0x3063; 0x305F; 0x3088; 0x3002; 0x3042; 0x306A;
   0x305F; 0x306E; 0x304B; 0x3061; 0xFF01].

(** [きょうはここまで！またあしたあそぼうね] *)
Definition msg_end : str :=
  [0x304D; 0x3087; 0x3046; 0x306F; 0x3053; 0x3053; 0x307E; 0x3067; 0xFF01;
   0x307E; 0x305F; 0x3042; 0x3057; 0x305F; 0x3042; 0x305D; 0x307C; 0x3046;
   0x306D].

(** The f-string [つぎは『{next_head}』からはじめてね]; [None] is printed
    as the word None. *)
Definition msg_next (next_head : option str) : str :=
  [0x3064; 0x304E; 0x306F; 0x300E]
  ++ default [0x004E; 0x006F; 0x006E; 0x0065] next_head
  ++ [0x300F; 0x304B; 0x3089; 0x306F; 0x3058; 0x3081; 0x3066; 0x306D].

Definition _turn_count_from_history (history : list str) : Z :=
  (Z.of_nat (length history) + 1) / 2.

(** Line 166 of [ai_move]: the history the handler works on, every
    raw entry that is not the empty string, normalized. *)
Definition retained_history (raw : list str) : list str :=
  to_hiragana <$> filter (fun w => Py.truthy w = true) raw.

(** Lines 181 to 184 of [ai_move]: the head the player's word must have,
    [next_required_head(history[-1])] when there is a history. *)
Definition expected_head_of (history : list str) : option str :=
  match last history with
  | Some last_word => next_required_head last_word
  | None => None
  end.

(** *** The external collaborators and the effects of a request

    A request reads two things that the handler does not control: the
    generative service and the random generator.  The only effect that
    matters afterwards is how often the service was called, so the
    state threaded through the handler is that number. *)

(** What one call of [model.generate_content] and the read of
    [resp.text] after it give: an exception, or the text attribute
    (absent, or a string). *)
Inductive GenReply :=
| GenRaised
| GenText (text : option str).

Definition M (A : Type) : Type := nat -> A * nat.

Definition ret {A : Type} (a : A) : M A := fun calls => (a, calls).

Definition bind {A B : Type} (m : M A) (k : A -> M B) : M B :=
  fun calls => let '(a, calls') := m calls in k a calls'.

Notation "x <- m ;; k" := (bind m (fun x => k))
  (at level 100, m at next level, right associativity).

Section Orchestrator.

(** [genai and GEMINI_API_KEY] *)
Variable genai_configured : bool.
(** The service's reply to its call number [n] of the request (from 0);
    the prompt is the same for both calls of a request. *)
Variable generate_content : nat -> GenReply.
(** The draw of [random.choice]: the index chosen is [random_draw] modulo
    the number of candidates. *)
Variable random_draw : nat.

Definition call_generate_content : M GenReply :=
  fun calls => (generate_content calls, S calls).

Definition _choose_fallback (head : str) (used : gset str) : option str :=
  let candidates :=
    filter (fun w => w ∉ used) (default [] (FALLBACK_DICT !! head)) in
  match candidates with
  | [] => None
  | _ :: _ => candidates !! (random_draw mod length candidates)%nat
  end.

Definition _gemini_generate
    (required_head : str) (used : gset str) (last_word : option str)
  : M (option str) :=
  if negb genai_configured then ret None
  else
    reply <- call_generate_content ;;
    match reply with
    | GenRaised => ret None (* [except Exception] *)
    | GenText text =>
        let candidate :=
          if Py.truthy_opt text then Py.strip <$> text else None in
        if Py.truthy_opt candidate
        then
          match head (Py.split (default [] candidate)) with
          | Some token => ret (Some (Py.strip token))
          | None => ret None (* [IndexError], caught as well *)
          end
        else ret candidate
    end.

(** Lines 210 to 222 of [ai_move]: the generated word, its one retry and
    the fallback. *)
Definition acquire_ai_word (head : str) (used : gset str) (w_user : str)
  : M (option str) :=
  ai_word <- _gemini_generate head used (Some w_user) ;;
  ai_word <-
    (if Py.truthy_opt ai_word
     then
       let '(ok_ai, _) := validate_ai_move (default [] ai_word) head used in
       if negb ok_ai
       then _gemini_generate head used (Some w_user)
       else ret ai_word
     else ret ai_word) ;;
  ret (if negb (Py.truthy_opt ai_word)
       then _choose_fallback head used
       else ai_word).

(** Lines 224 to 276 of [ai_move]: the last validation and the response. *)
Definition resolve_exchange
    (history : list str) (used : gset str) (user_turns_before : Z)
    (w_user head : str) (ai_word : option str) : Outcome :=
  if negb (Py.truthy_opt ai_word)
  then
    Returned {| ok := true; message := msg_ai_no_answer;
                user_word := Some w_user; ai_word := None;
                next_head_for_user := None; used := elements used;
                turn_count := user_turns_before + 1;
                game_over := true; winner := Some winner_user |}
  else
    let word := default [] ai_word in
    let '(ok_ai, msg_ai) := validate_ai_move word head used in
    if negb ok_ai
    then
      Returned {| ok := true; message := msg_ai_broke_rules;
                  user_word := Some w_user; ai_word := Some word;
                  next_head_for_user := None; used := elements used;
                  turn_count := user_turns_before + 1;
                  game_over := true; winner := Some winner_user |}
    else
      let history := history ++ [word] in
      let used := used ∪ {[word]} in
      let next_head := next_required_head word in
      let user_turns_after := _turn_count_from_history history in
      let game_over := MAX_TURNS <=? user_turns_after in
      let end_msg := if game_over then msg_end else [] in
      Returned {| ok := true;
                  message := if Py.truthy end_msg then end_msg
                             else msg_next next_head;
                  user_word := Some w_user; ai_word := Some word;
                  next_head_for_user := next_head; used := elements used;
                  turn_count := user_turns_after;
                  game_over := game_over;
                  winner := if game_over then Some winner_none else None |}.

Definition ai_move (req : MoveRequest) : M Outcome :=
  let history := retained_history (req_history req) in
  let used : gset str := list_to_set history in
  let user_turns_before := _turn_count_from_history history in
  if MAX_TURNS <=? user_turns_before
  then
    ret (Returned {| ok := false; message := msg_round_limit;
                     user_word := None; ai_word := None;
                     next_head_for_user := None; used := elements used;
                     turn_count := user_turns_before;
                     game_over := true; winner := Some winner_none |})
  else
    let expected_head := expected_head_of history in
    let '(ok, msg) :=
      validate_user_move (req_user_word req) expected_head used in
    let w_user := to_hiragana (req_user_word req) in
    if negb ok
    then
      ret (Returned {| ok := false; message := msg;
                       user_word := Some w_user; ai_word := None;
                       next_head_for_user := None; used := elements used;
                       turn_count := user_turns_before + 1;
                       game_over := true; winner := Some winner_ai |})
    else
      let history := history ++ [w_user] in
      let used := used ∪ {[w_user]} in
      match next_required_head w_user with
      | None => ret (HTTPException 400 msg_empty_word_detail)
      | Some head =>
          ai_word <- acquire_ai_word head used w_user ;;
          ret (resolve_exchange history used user_turns_before
                 w_user head ai_word)
      end.

End Orchestrator.

(** ** Vocabulary of the statements *)

(** What one character contributes to the output of [to_hiragana]. *)
Definition kana_of (ch : Z) : str := to_hiragana_step [] ch.

(** The code points after [ゖ] that the offset reaches from [ヷ ヸ ヹ ヺ]. *)
Definition stray (ch : Z) : Prop := 0x3097 <= ch <= 0x309A.

(** A character [to_hiragana] keeps or maps: hiragana, the prolongation
    mark, or katakana. *)
Definition syllabary_char (ch : Z) : bool :=
  in_hiragana_class ch || ((ch_kata_small_a <=? ch) && (ch <=? ch_kata_vo)).

(** A validator as the specification words it: checks applied in order,
    each with the message of its failure; the first failure wins. *)
Fixpoint first_failure (checks : list (bool * str)) : bool * str :=
  match checks with
  | [] => (true, msg_OK)
  | (passed, msg) :: rest =>
      if passed then first_failure rest else (false, msg)
  end.

(** Check 1: the word is non-empty after normalization. *)
Definition non_empty (w : str) : bool := bool_decide (w ≠ []).

(** Check 2: every character is canonical syllabary or the prolongation
    mark. *)
Definition script_pure (w : str) : bool := forallb in_hiragana_class w.

(** Check 3: the word is not already in [used]. *)
Definition not_repeated (w : str) (used : gset str) : bool :=
  bool_decide (w ∉ used).

(** Check 4: the effective tail is not the taboo syllable [ん]. *)
Definition tail_allowed (w : str) : bool :=
  bool_decide (normalize_last_char w ≠ Some [ch_n]).

(** Check 5: when a head is required, the first syllable, mapped through
    small to large, equals it. *)
Definition head_matches (w : str) (requiredHead : option Z) : bool :=
  match requiredHead with
  | None => true
  | Some h => bool_decide (small_to_large <$> head w = Some h)
  end.

(** A syllable as the one-character string the code passes around. *)
Definition syllable_str (requiredHead : option Z) : option str :=
  (fun ch => [ch]) <$> requiredHead.

(** [validateChallenger] of the specification: checks 1 to 5 in order. *)
Definition validateChallenger
    (w : str) (requiredHead : option Z) (used : gset str) : bool * str :=
  first_failure
    [ (non_empty w, msg_empty);
      (script_pure w, msg_not_hiragana);
      (not_repeated w used, msg_repeated);
      (tail_allowed w, msg_end_n);
      (head_matches w requiredHead,
       msg_wrong_head (default [] (syllable_str requiredHead))) ].

(** [validateOpponent] in the order the claim gives: checks 2 to 5 of the
    player's validation, in the same order, each with the message
    [validate_ai_move] has for it. *)
Definition validateOpponent_as_claimed
    (w : str) (requiredHead : Z) (used : gset str) : bool * str :=
  first_failure
    [ (script_pure w, msg_ai_not_hiragana);
      (not_repeated w used, msg_ai_repeated);
      (tail_allowed w, msg_ai_end_n);
      (head_matches w (Some requiredHead), msg_ai_head) ].

(** ** Requests and collaborators used as examples *)

(** A service that raises at each call. *)
Definition no_reply : nat -> GenReply := fun _ => GenRaised.

(** A service that answers the Latin text [abc] at each call. *)
Definition reply_latin : nat -> GenReply :=
  fun _ => GenText (Some [0x0061; 0x0062; 0x0063]).

(** A service that answers [abc] at its first call and raises afterwards. *)
Definition reply_latin_once : nat -> GenReply :=
  fun n =>
    match n with
    | O => GenText (Some [0x0061; 0x0062; 0x0063])
    | S _ => GenRaised
    end.

(** 39 entries [あ] and an empty candidate: 20 turns were played. *)
Definition req_limit_empty : MoveRequest :=
  {| req_history := replicate 39 [0x3042]; req_user_word := [] |}.

(** 38 entries [あ], a raw entry [A] that normalizes to the empty word,
    and the candidate [ー]. *)
Definition req_limit_mark : MoveRequest :=
  {| req_history := replicate 38 [0x3042] ++ [[0x0041]];
     req_user_word := [ch_prolong] |}.

(** 38 entries [あ] and the candidate [あか]: the twentieth turn. *)
Definition req_last_turn : MoveRequest :=
  {| req_history := replicate 38 [0x3042];
     req_user_word := [0x3042; 0x304B] |}.

(** No history and the candidate [めろん]. *)
Definition req_melon : MoveRequest :=
  {| req_history := []; req_user_word := [0x3081; 0x308D; 0x3093] |}.

(** No history and the candidate [ー]. *)
Definition req_mark : MoveRequest :=
  {| req_history := []; req_user_word := [ch_prolong] |}.

(** No history and the candidate [かが]; the fallback table has no words
    for [が]. *)
Definition req_kaga : MoveRequest :=
  {| req_history := []; req_user_word := [0x304B; 0x304C] |}.

(** The history [A] (one raw entry without kana) and the candidate [ねこ]. *)
Definition req_after_latin : MoveRequest :=
  {| req_history := [[0x0041]]; req_user_word := [0x306D; 0x3053] |}.

(** The history [A] and the candidate [ー]. *)
Definition req_latin_mark : MoveRequest :=
  {| req_history := [[0x0041]]; req_user_word := [ch_prolong] |}.

(** 38 entries [あ], the raw entry [A], and the candidate [ねこ]. *)
Definition req_limit_neko : MoveRequest :=
  {| req_history := replicate 38 [0x3042] ++ [[0x0041]];
     req_user_word := [0x306D; 0x3053] |}.

(** ** Definitions for the further properties *)

(** [sep.join(words)] *)
Fixpoint py_join (sep : str) (words : list str) : str :=
  match words with
  | [] => []
  | [w] => w
  | w :: rest => w ++ sep ++ py_join sep rest
  end.

(** The separator of [summarize_history]: a space, the arrow U+2192, a
    space. *)
Definition arrow_sep : str := [0x0020; 0x2192; 0x0020].

(** [summarize_history] of [app/shiritori.py] *)
Definition summarize_history (words : list str) : str :=
  py_join arrow_sep words.

(** One row of [FALLBACK_DICT] is well formed: the key is one character
    that the small to large table leaves alone, and each word starts
    with the key and is made of characters of the class. *)
Definition fallback_row_ok (row : str * list str) : bool :=
  match fst row with
  | [key] =>
      (small_to_large key =? key)
      && forallb
           (fun w =>
              match w with
              | ch :: _ => (ch =? key) && forallb in_hiragana_class w
              | [] => false
              end)
           (snd row)
  | _ => false
  end.

(** * The scenarios of the specification, run on the model *)

(** [ネコ] is normalized to [ねこ]; spaces, Latin letters and digits are
    dropped and the prolongation mark is kept. *)
Example to_hiragana_katakana :
  to_hiragana [0x30CD; 0x30B3] = [0x306D; 0x3053]
  /\ to_hiragana [0x0020; 0x30CD; 0x3000; 0x3053; 0x0041; 0x0031; 0x30FC]
     = [0x306D; 0x3053; 0x30FC].
Proof. split; reflexivity. Qed.

(** The tails of [とり], [とー] and [きしゃ] are [り], [と] and [や]. *)
Example normalize_last_char_values :
  normalize_last_char [0x3068; 0x308A] = Some [0x308A]
  /\ normalize_last_char [0x3068; 0x30FC] = Some [0x3068]
  /\ normalize_last_char [0x304D; 0x3057; 0x3083] = Some [0x3084].
Proof. repeat split; reflexivity. Qed.

(** [めろん] fails for its tail, whatever else holds. *)
Example validate_melon :
  validate_user_move [0x3081; 0x308D; 0x3093] (Some [0x3081]) ∅
  = (false, msg_end_n).
Proof. vm_compute. reflexivity. Qed.

(** A candidate that starts with the small [ゃ] matches the head [や]. *)
Example validate_small_head :
  validate_user_move [0x3083; 0x307E] (Some [0x3084]) ∅ = (true, msg_OK).
Proof. vm_compute. reflexivity. Qed.

(** Scenario 1: no history, candidate [ねこ], the fallback answers with a
    word for [こ]. *)
Example scenario_neko :
  ai_move false no_reply 0%nat
    {| req_history := []; req_user_word := [0x306D; 0x3053] |} 0%nat
  = (Returned {| ok := true; message := msg_next (Some [0x308A]);
                 user_word := Some [0x306D; 0x3053];
                 ai_word := Some [0x3053; 0x3068; 0x308A];
                 next_head_for_user := Some [0x308A];
                 used := elements ({[ [0x306D; 0x3053] ]}
                                   ∪ {[ [0x3053; 0x3068; 0x308A] ]}
                                   : gset str);
                 turn_count := 1; game_over := false; winner := None |},
     0%nat).
Proof. vm_compute. reflexivity. Qed.

(** Scenario 4: the candidate [ねこ] is already in the history. *)
Example scenario_repeated :
  ai_move false no_reply 0%nat
    {| req_history := [[0x306D; 0x3053]; [0x3053; 0x3068; 0x306D]];
       req_user_word := [0x306D; 0x3053] |} 0%nat
  = (Returned {| ok := false; message := msg_repeated;
                 user_word := Some [0x306D; 0x3053];
                 ai_word := None; next_head_for_user := None;
                 used := elements ({[ [0x306D; 0x3053] ]}
                                   ∪ {[ [0x3053; 0x3068; 0x306D] ]}
                                   : gset str);
                 turn_count := 2; game_over := true;
                 winner := Some winner_ai |},
     0%nat).
Proof. vm_compute. reflexivity. Qed.

(** * Facts about the normalizer and the rule engine *)

Lemma isspace_low ch : Py.isspace ch = true -> ch <= 0x3000.
Proof. unfold Py.isspace. lia. Qed.

Lemma to_hiragana_step_app out ch :
  to_hiragana_step out ch = out ++ kana_of ch.
Proof.
  unfold kana_of, to_hiragana_step.
  repeat match goal with |- context [if ?b then _ else _] => destruct b end;
    simpl; try rewrite app_nil_r; reflexivity.
Qed.

Lemma to_hiragana_loop s out :
  fold_left to_hiragana_step s out = out ++ (s ≫= kana_of).
Proof.
  revert out; induction s as [|ch s IH]; intros out; simpl.
  - by rewrite app_nil_r.
  - rewrite IH, to_hiragana_step_app, <- app_assoc. reflexivity.
Qed.

Lemma kana_of_cases ch :
  (kana_of ch = [] /\ in_hiragana_class ch = false)
  \/ (kana_of ch = [ch] /\ in_hiragana_class ch = true /\ Py.isspace ch = false)
  \/ (kana_of ch = [ch - 96] /\ 0x30A1 <= ch <= 0x30FA).
Proof.
  unfold kana_of, to_hiragana_step, in_hiragana_class, _KATAKANA_TO_HIRAGANA_OFFSET,
    ch_small_a, ch_small_ke, ch_kata_small_a, ch_kata_vo, ch_prolong.
  destruct (Py.isspace ch) eqn:Hs.
  - left. apply isspace_low in Hs. split; [reflexivity | lia].
  - destruct ((12353 <=? ch) && (ch <=? 12438) || (ch =? 12540)) eqn:H1;
      [right; left; repeat split |].
    destruct ((12449 <=? ch) && (ch <=? 12538) || (ch =? 12540)) eqn:H2;
      [| left; split; reflexivity].
    right; right. destruct (ch =? 12540) eqn:H3; [lia |].
    simpl. split; [f_equal; lia | lia].
Qed.

Lemma kana_of_length ch : (length (kana_of ch) <= 1)%nat.
Proof.
  destruct (kana_of_cases ch) as [[-> _]|[[-> _]|[-> _]]]; simpl; lia.
Qed.

Lemma bind_kana_rev s : rev s ≫= kana_of = rev (s ≫= kana_of).
Proof.
  induction s as [|ch s IH]; [reflexivity |].
  simpl. rewrite bind_app, IH, rev_app_distr. simpl. rewrite app_nil_r.
  f_equal. pose proof (kana_of_length ch) as Hlen.
  destruct (kana_of ch) as [|a [|b l]]; simpl in *; [reflexivity | reflexivity | lia].
Qed.

Lemma kana_of_space ch : Py.isspace ch = true -> kana_of ch = [].
Proof. intros H. unfold kana_of, to_hiragana_step. by rewrite H. Qed.

Lemma bind_kana_lstrip s : Py.lstrip s ≫= kana_of = s ≫= kana_of.
Proof.
  induction s as [|ch s IH]; [reflexivity |]. simpl.
  destruct (Py.isspace ch) eqn:Hs; [| reflexivity].
  by rewrite IH, (kana_of_space ch Hs).
Qed.

Lemma to_hiragana_bind s : to_hiragana s = s ≫= kana_of.
Proof.
  unfold to_hiragana. rewrite to_hiragana_loop. simpl.
  unfold Py.strip, Py.rstrip.
  by rewrite bind_kana_rev, bind_kana_lstrip, <- bind_kana_rev, rev_involutive, bind_kana_lstrip.
Qed.

Lemma kana_of_class ch : in_hiragana_class ch = true -> kana_of ch = [ch].
Proof.
  intros H. destruct (kana_of_cases ch) as [[_ H']|[[-> _]|[_ H']]];
    [congruence | reflexivity |].
  unfold in_hiragana_class, ch_small_a, ch_small_ke, ch_prolong in H. lia.
Qed.

Lemma to_hiragana_pure w :
  Forall (fun ch => in_hiragana_class ch = true) w -> to_hiragana w = w.
Proof.
  rewrite to_hiragana_bind. induction 1 as [|ch w Hch _ IH]; [reflexivity |].
  rewrite bind_cons, IH, (kana_of_class ch Hch). reflexivity.
Qed.

Lemma to_hiragana_chars s ch :
  ch ∈ to_hiragana s -> in_hiragana_class ch = true \/ stray ch.
Proof.
  rewrite to_hiragana_bind, list_elem_of_bind. intros (c & Hin & _).
  destruct (kana_of_cases c) as [[E _]|[[E [Hc _]]|[E Hr]]]; rewrite E in Hin.
  - by apply elem_of_nil in Hin.
  - apply list_elem_of_singleton in Hin. subst. by left.
  - apply list_elem_of_singleton in Hin. subst.
    unfold in_hiragana_class, stray, ch_small_a, ch_small_ke, ch_prolong. lia.
Qed.

Lemma hiragana_rest_forallb s :
  ch_newline ∉ s -> hiragana_rest s = forallb in_hiragana_class s.
Proof.
  induction s as [|ch s IH]; [reflexivity |]. intros Hnl. simpl.
  apply not_elem_of_cons in Hnl as [Hne Hnl].
  destruct (in_hiragana_class ch); [by apply IH |].
  simpl. destruct (Z.eqb_spec ch ch_newline); [congruence | reflexivity].
Qed.

Lemma is_hiragana_only_forallb s :
  ch_newline ∉ s ->
  is_hiragana_only s = Py.truthy s && forallb in_hiragana_class s.
Proof.
  destruct s as [|ch s]; [reflexivity |]. intros Hnl. simpl.
  apply not_elem_of_cons in Hnl as [_ Hnl]. by rewrite hiragana_rest_forallb.
Qed.

Lemma to_hiragana_no_newline s : ch_newline ∉ to_hiragana s.
Proof.
  intros [H|H]%to_hiragana_chars.
  - vm_compute in H. discriminate.
  - unfold stray, ch_newline in H. lia.
Qed.

Lemma is_hiragana_only_normalized s :
  is_hiragana_only (to_hiragana s)
  = Py.truthy (to_hiragana s) && forallb in_hiragana_class (to_hiragana s).
Proof. apply is_hiragana_only_forallb, to_hiragana_no_newline. Qed.

Lemma small_to_large_spec ch :
  small_to_large ch =
    if ch =? 0x3041 then 0x3042 else if ch =? 0x3043 then 0x3044
    else if ch =? 0x3045 then 0x3046 else if ch =? 0x3047 then 0x3048
    else if ch =? 0x3049 then 0x304A else if ch =? 0x3063 then 0x3064
    else if ch =? 0x3083 then 0x3084 else if ch =? 0x3085 then 0x3086
    else if ch =? 0x3087 then 0x3088 else if ch =? 0x308E then 0x308F
    else ch.
Proof.
  repeat match goal with
         | |- context [if ?x =? ?k then _ else _] =>
             destruct (Z.eqb_spec x k) as [->|?]; [reflexivity |]
         end.
  unfold small_to_large, _SMALL_TO_LARGE.
  rewrite (not_elem_of_list_to_map_1 _ ch); [reflexivity |].
  simpl. rewrite !not_elem_of_cons. repeat split; try assumption.
  apply not_elem_of_nil.
Qed.

Lemma small_to_large_n ch : small_to_large ch = ch_n <-> ch = ch_n.
Proof.
  rewrite small_to_large_spec. unfold ch_n.
  repeat match goal with
         | |- context [if ?x =? ?k then _ else _] =>
             destruct (Z.eqb_spec x k) as [->|?]; [lia |]
         end.
  reflexivity.
Qed.

Lemma strip_trailing_snoc t ch :
  strip_trailing_prolong_mark (t ++ [ch])
  = if ch =? ch_prolong then t else t ++ [ch].
Proof.
  unfold strip_trailing_prolong_mark, Py.endswith.
  by rewrite last_snoc, removelast_last.
Qed.

Lemma normalize_last_char_last s :
  normalize_last_char s
  = (fun ch => [small_to_large ch]) <$> last (strip_trailing_prolong_mark s).
Proof.
  unfold normalize_last_char.
  destruct s as [|c s]; [reflexivity |]. simpl negb. cbv iota.
  destruct (strip_trailing_prolong_mark (c :: s)) as [|c' t]; [reflexivity |].
  simpl Py.truthy. simpl negb. cbv iota. by destruct (last (c' :: t)).
Qed.

Lemma violates_end_n_last s :
  violates_end_n s = bool_decide (last (strip_trailing_prolong_mark s) = Some ch_n).
Proof.
  unfold violates_end_n, Py.endswith.
  destruct (strip_trailing_prolong_mark s) as [|c' t]; [reflexivity |].
  simpl Py.truthy. cbv iota.
  destruct (last (c' :: t)) as [c|]; [| reflexivity].
  destruct (Z.eqb_spec c ch_n) as [->|Hne]; symmetry.
  - by apply bool_decide_eq_true.
  - apply bool_decide_eq_false. congruence.
Qed.

Lemma violates_end_n_tail s :
  violates_end_n s = bool_decide (normalize_last_char s = Some [ch_n]).
Proof.
  rewrite violates_end_n_last, normalize_last_char_last.
  apply bool_decide_ext.
  destruct (last (strip_trailing_prolong_mark s)) as [c|]; simpl; [| split; discriminate].
  split; [by intros [= ->] |]. intros [= H]. f_equal. by apply small_to_large_n.
Qed.

Lemma validate_user_move_checks raw requiredHead used :
  validate_user_move raw (syllable_str requiredHead) used
  = validateChallenger (to_hiragana raw) requiredHead used.
Proof.
  unfold validate_user_move, validateChallenger.
  rewrite is_hiragana_only_normalized, violates_end_n_tail.
  set (w := to_hiragana raw).
  unfold non_empty, script_pure, not_repeated, tail_allowed, first_failure.
  destruct w as [|c w']; [reflexivity |].
  rewrite (bool_decide_eq_true_2 (c :: w' ≠ [])) by discriminate.
  cbn [Py.truthy negb andb].
  destruct (forallb in_hiragana_class (c :: w')); cbn [negb]; [| reflexivity].
  destruct (decide (c :: w' ∈ used)) as [Hin|Hin].
  { rewrite (bool_decide_eq_true_2 _ Hin).
    rewrite (bool_decide_eq_false_2 (c :: w' ∉ used)) by auto. reflexivity. }
  rewrite (bool_decide_eq_false_2 _ Hin), (bool_decide_eq_true_2 _ Hin).
  destruct (decide (normalize_last_char (c :: w') = Some [ch_n])) as [Ht|Ht].
  { rewrite (bool_decide_eq_true_2 _ Ht).
    rewrite (bool_decide_eq_false_2 (_ ≠ _)) by auto. reflexivity. }
  rewrite (bool_decide_eq_false_2 _ Ht), (bool_decide_eq_true_2 _ Ht).
  destruct requiredHead as [h|]; [| reflexivity].
  cbn. destruct (decide (small_to_large c = h)) as [->|Hne].
  - rewrite bool_decide_eq_false_2 by auto.
    rewrite bool_decide_eq_true_2 by reflexivity. reflexivity.
  - rewrite bool_decide_eq_true_2 by congruence.
    rewrite bool_decide_eq_false_2 by congruence. reflexivity.
Qed.

(** * Facts about the handler *)

Section OrchestratorFacts.
Variable genai_configured : bool.
Variable generate_content : nat -> GenReply.
Variable random_draw : nat.

Local Abbreviation ai_move :=
  (ai_move genai_configured generate_content random_draw).
Local Abbreviation acquire_ai_word :=
  (acquire_ai_word genai_configured generate_content random_draw).
Local Abbreviation _gemini_generate :=
  (_gemini_generate genai_configured generate_content).

Lemma ai_move_round_limit req calls :
  let history := retained_history (req_history req) in
  MAX_TURNS <= _turn_count_from_history history ->
  ai_move req calls
  = (Returned {| ok := false; message := msg_round_limit;
                 user_word := None; ai_word := None;
                 next_head_for_user := None;
                 used := elements (list_to_set history : gset str);
                 turn_count := _turn_count_from_history history;
                 game_over := true; winner := Some winner_none |}, calls).
Proof.
  intros history Hlim. unfold ai_move. fold history.
  destruct (Z.leb_spec MAX_TURNS (_turn_count_from_history history)); [reflexivity | lia].
Qed.

Lemma ai_move_rejected req calls msg :
  let history := retained_history (req_history req) in
  let used : gset str := list_to_set history in
  _turn_count_from_history history < MAX_TURNS ->
  validate_user_move (req_user_word req) (expected_head_of history) used
    = (false, msg) ->
  ai_move req calls
  = (Returned {| ok := false; message := msg;
                 user_word := Some (to_hiragana (req_user_word req));
                 ai_word := None; next_head_for_user := None;
                 used := elements used;
                 turn_count := _turn_count_from_history history + 1;
                 game_over := true; winner := Some winner_ai |}, calls).
Proof.
  intros history used Hlim Hval. unfold ai_move. fold history. fold used.
  destruct (Z.leb_spec MAX_TURNS (_turn_count_from_history history)); [lia |].
  rewrite Hval. reflexivity.
Qed.

Lemma ai_move_accepted req calls msg :
  let history := retained_history (req_history req) in
  let used : gset str := list_to_set history in
  let w_user := to_hiragana (req_user_word req) in
  _turn_count_from_history history < MAX_TURNS ->
  validate_user_move (req_user_word req) (expected_head_of history) used
    = (true, msg) ->
  ai_move req calls
  = match next_required_head w_user with
    | None => (HTTPException 400 msg_empty_word_detail, calls)
    | Some head =>
        let '(ai_word, calls') :=
          acquire_ai_word head (used ∪ {[w_user]}) w_user calls in
        (resolve_exchange (history ++ [w_user]) (used ∪ {[w_user]})
           (_turn_count_from_history history) w_user head ai_word, calls')
    end.
Proof.
  intros history used w_user Hlim Hval. unfold ai_move. fold history. fold used.
  destruct (Z.leb_spec MAX_TURNS (_turn_count_from_history history)); [lia |].
  rewrite Hval. cbv beta iota zeta. fold w_user. simpl negb. cbv iota.
  destruct (next_required_head w_user) as [head|]; [| reflexivity].
  reflexivity.
Qed.

Lemma _gemini_generate_calls required_head used last_word calls :
  (calls <= (_gemini_generate required_head used last_word calls).2
   <= calls + 1)%nat.
Proof.
  unfold _gemini_generate. destruct genai_configured; simpl; [| unfold ret; simpl; lia].
  unfold bind, call_generate_content.
  destruct (generate_content calls) as [|text]; [unfold ret; simpl; lia |].
  destruct (Py.truthy_opt _); [| unfold ret; simpl; lia].
  destruct (hd_error _); unfold ret; simpl; lia.
Qed.

Lemma acquire_ai_word_calls head used w_user calls :
  (calls <= (acquire_ai_word head used w_user calls).2 <= calls + 2)%nat.
Proof.
  unfold acquire_ai_word, bind.
  pose proof (_gemini_generate_calls head used (Some w_user) calls) as H1.
  destruct (_gemini_generate head used (Some w_user) calls) as [a1 n1].
  simpl in H1.
  destruct (Py.truthy_opt a1); [| unfold ret; simpl; lia].
  destruct (validate_ai_move _ _ _) as [[] ?]; cbn [negb];
    [unfold ret; simpl; lia |].
  pose proof (_gemini_generate_calls head used (Some w_user) n1) as H2.
  destruct (_gemini_generate head used (Some w_user) n1) as [a2 n2].
  unfold ret; simpl in *; lia.
Qed.

Lemma ai_move_calls req calls :
  (calls <= (ai_move req calls).2 <= calls + 2)%nat.
Proof.
  set (history := retained_history (req_history req)).
  destruct (Z.leb_spec MAX_TURNS (_turn_count_from_history history)) as [Hl|Hl].
  { rewrite ai_move_round_limit by exact Hl. simpl. lia. }
  destruct (validate_user_move (req_user_word req) (expected_head_of history)
              (list_to_set history)) as [[] msg] eqn:Hval.
  - rewrite (ai_move_accepted _ _ msg) by assumption.
    destruct (next_required_head _) as [head|]; [| simpl; lia].
    match goal with |- context [acquire_ai_word ?h ?u ?w ?c] =>
      pose proof (acquire_ai_word_calls h u w c) as Hc;
      destruct (acquire_ai_word h u w c) end.
    exact Hc.
  - rewrite (ai_move_rejected _ _ msg) by assumption. simpl. lia.
Qed.

End OrchestratorFacts.

(** * The properties of the specification *)

(** ** C2 and C3: the normalizer on [ヷ ヸ ヹ ヺ] *)

Lemma to_hiragana_chars_origin s ch :
  ch ∈ to_hiragana s ->
  in_hiragana_class ch = true \/ (stray ch /\ ch + 96 ∈ s).
Proof.
  rewrite to_hiragana_bind, list_elem_of_bind. intros (c & Hin & Hc).
  destruct (kana_of_cases c) as [[E _]|[[E [Hcl _]]|[E Hr]]]; rewrite E in Hin.
  - by apply elem_of_nil in Hin.
  - apply list_elem_of_singleton in Hin. subst. by left.
  - apply list_elem_of_singleton in Hin. subst.
    destruct (in_hiragana_class (c - 96)) eqn:Hcl; [by left | right].
    replace (c - 96 + 96) with c by lia. split; [| exact Hc].
    unfold in_hiragana_class, stray, ch_small_a, ch_small_ke, ch_prolong in *.
    lia.
Qed.

(** Away from the four katakana [ヷ ヸ ヹ ヺ] (U+30F7 to U+30FA) the
    normalizer does stay inside the class and is idempotent. *)
Lemma to_hiragana_idempotent_without_va s :
  (forall ch, ch ∈ s -> ~ 0x30F7 <= ch <= 0x30FA) ->
  Forall (fun ch => in_hiragana_class ch = true) (to_hiragana s)
  /\ to_hiragana (to_hiragana s) = to_hiragana s.
Proof.
  intros Hs.
  assert (Forall (fun ch => in_hiragana_class ch = true) (to_hiragana s)) as HF.
  { apply Forall_forall. intros ch [H|[Hst Hin]]%to_hiragana_chars_origin;
      [exact H |].
    exfalso. apply (Hs _ Hin). unfold stray in Hst. lia. }
  split; [exact HF | by apply to_hiragana_pure].
Qed.

(** C2, at the failing input.  [to_hiragana] maps the katakana [ヷ]
    (U+30F7) by the offset to U+3097, which is neither in [ぁ-ゖ] nor the
    prolongation mark: the output has a character outside the canonical
    syllabary, against the claim and the function's own docstring. *)
Theorem to_hiragana_va_leaves_syllabary :
  to_hiragana [0x30F7] = [0x3097]
  /\ Exists (fun ch => in_hiragana_class ch = false) (to_hiragana [0x30F7]).
Proof.
  split; [reflexivity |]. apply Exists_cons_hd. reflexivity.
Qed.

(** C3, at the failing input.  Normalizing [ヷ] gives U+3097, and
    normalizing that again gives the empty string: [to_hiragana] is not
    idempotent on [ヷ]. *)
Theorem to_hiragana_va_not_idempotent :
  to_hiragana [0x30F7] = [0x3097]
  /\ to_hiragana (to_hiragana [0x30F7]) = []
  /\ to_hiragana (to_hiragana [0x30F7]) <> to_hiragana [0x30F7].
Proof.
  split; [reflexivity |]. split; [reflexivity |]. discriminate.
Qed.

(** ** C4: the effective tail *)

(** C4.  [normalize_last_char] returns [None] for the empty word; a
    trailing prolongation mark is dropped, exactly one of them, and the
    character before it is used (so a word ending in two marks has the
    mark itself as tail); a word that ends in another character uses that
    character.  The character used goes through [_SMALL_TO_LARGE] before
    it is returned: each of the ten small kana [ぁ ぃ ぅ ぇ ぉ っ ゃ ゅ ょ ゎ]
    is returned as its large form [あ い う え お つ や ゆ よ わ], with or
    without a mark after it, and every other character is returned as it
    is. *)
Theorem normalize_last_char_tail :
  normalize_last_char [] = None
  /\ (forall t, strip_trailing_prolong_mark (t ++ [ch_prolong]) = t)
  /\ (forall t,
        normalize_last_char (t ++ [ch_prolong])
        = (fun ch => [small_to_large ch]) <$> last t)
  /\ (forall t ch,
        normalize_last_char (t ++ [ch; ch_prolong]) = Some [small_to_large ch])
  /\ (forall t,
        normalize_last_char (t ++ [ch_prolong; ch_prolong]) = Some [ch_prolong])
  /\ (forall t ch,
        ch <> ch_prolong ->
        normalize_last_char (t ++ [ch]) = Some [small_to_large ch])
  /\ small_to_large
       <$> [0x3041; 0x3043; 0x3045; 0x3047; 0x3049;
            0x3063; 0x3083; 0x3085; 0x3087; 0x308E]
     = [0x3042; 0x3044; 0x3046; 0x3048; 0x304A;
        0x3064; 0x3084; 0x3086; 0x3088; 0x308F]
  /\ (forall t small large,
        _SMALL_TO_LARGE !! small = Some large ->
        small <> large
        /\ normalize_last_char (t ++ [small]) = Some [large]
        /\ normalize_last_char (t ++ [small; ch_prolong]) = Some [large])
  /\ (forall t ch,
        _SMALL_TO_LARGE !! ch = None ->
        normalize_last_char (t ++ [ch; ch_prolong]) = Some [ch]
        /\ (ch <> ch_prolong -> normalize_last_char (t ++ [ch]) = Some [ch]))
  /\ (forall ch,
        _SMALL_TO_LARGE !! ch = None
        <-> ch ∉ [0x3041; 0x3043; 0x3045; 0x3047; 0x3049;
                  0x3063; 0x3083; 0x3085; 0x3087; 0x308E]).
Proof.
  assert (forall t,
             normalize_last_char (t ++ [ch_prolong])
             = (fun ch => [small_to_large ch]) <$> last t) as Hdrop.
  { intros t. rewrite normalize_last_char_last, strip_trailing_snoc.
    by rewrite Z.eqb_refl. }
  assert (forall t ch,
             normalize_last_char (t ++ [ch; ch_prolong])
             = Some [small_to_large ch]) as Hprev.
  { intros t ch. change (t ++ [ch; ch_prolong]) with (t ++ [ch] ++ [ch_prolong]).
    rewrite app_assoc, Hdrop, last_snoc. reflexivity. }
  assert (forall t ch,
             ch <> ch_prolong ->
             normalize_last_char (t ++ [ch]) = Some [small_to_large ch])
    as Hlast.
  { intros t ch Hne. rewrite normalize_last_char_last, strip_trailing_snoc.
    destruct (Z.eqb_spec ch ch_prolong); [contradiction |].
    by rewrite last_snoc. }
  assert (forall small large,
             _SMALL_TO_LARGE !! small = Some large ->
             (small, large)
             ∈ [ (0x3041, 0x3042); (0x3043, 0x3044); (0x3045, 0x3046);
                 (0x3047, 0x3048); (0x3049, 0x304A); (0x3063, 0x3064);
                 (0x3083, 0x3084); (0x3085, 0x3086); (0x3087, 0x3088);
                 (0x308E, 0x308F) ]) as Hpairs.
  { intros small large Hlook. by apply elem_of_list_to_map_2 in Hlook. }
  split; [reflexivity |].
  split; [intros t; rewrite strip_trailing_snoc; by rewrite Z.eqb_refl |].
  split; [exact Hdrop |]. split; [exact Hprev |].
  split; [intros t; rewrite Hprev; reflexivity |].
  split; [exact Hlast |]. split; [reflexivity |].
  split; [| split].
  - intros t small large Hlook.
    assert (small_to_large small = large) as Hlarge
      by (unfold small_to_large; by rewrite Hlook).
    assert (small <> large /\ small <> ch_prolong) as [Hne Hmark].
    { apply Hpairs in Hlook. rewrite !elem_of_cons, elem_of_nil in Hlook.
      unfold ch_prolong.
      repeat destruct Hlook as [Hlook|Hlook];
        try contradiction; injection Hlook as -> ->; split; discriminate. }
    split; [exact Hne |].
    by rewrite (Hlast t small Hmark), Hprev, Hlarge.
  - intros t ch Hnone.
    assert (small_to_large ch = ch) as Hsame
      by (unfold small_to_large; by rewrite Hnone).
    split; [by rewrite Hprev, Hsame |].
    intros Hmark. by rewrite (Hlast t ch Hmark), Hsame.
  - intros ch. split.
    + intros Hnone Hin. rewrite !elem_of_cons, elem_of_nil in Hin.
      repeat destruct Hin as [Hin|Hin];
        try contradiction; subst ch; vm_compute in Hnone;
        discriminate Hnone.
    + intros Hout. apply not_elem_of_list_to_map_1. exact Hout.
Qed.

(** The tails of [とり], of [きしゃ] (the small [ゃ] gives [や]) and of
    [ゎー] (the mark is dropped, the small [ゎ] gives [わ]); the tail of
    [とー] is [と]. *)
Lemma normalize_last_char_tail_witness :
  0x308A <> ch_prolong
  /\ normalize_last_char ([0x3068] ++ [0x308A]) = Some [small_to_large 0x308A]
  /\ normalize_last_char [0x3068; 0x308A] = Some [0x308A]
  /\ normalize_last_char [0x304D; 0x3057; 0x3083] = Some [0x3084]
  /\ normalize_last_char [0x308E; ch_prolong] = Some [0x308F]
  /\ normalize_last_char [0x3068; ch_prolong] = Some [0x3068].
Proof.
  destruct normalize_last_char_tail
    as (_ & _ & _ & _ & _ & Hlast & _ & Hsmall & Hother & _).
  split; [discriminate |].
  split; [apply (Hlast [0x3068] 0x308A); discriminate |].
  split.
  { apply (proj2 (Hother [0x3068] 0x308A ltac:(reflexivity))). discriminate. }
  split.
  { apply (proj1 (proj2 (Hsmall [0x304D; 0x3057] 0x3083 0x3084
                           ltac:(reflexivity)))). }
  split.
  { apply (proj2 (proj2 (Hsmall [] 0x308E 0x308F ltac:(reflexivity)))). }
  apply (proj1 (Hother [] 0x3068 ltac:(reflexivity))).
Defined.

(** ** C5: the turn count and the round limit *)

(** C5.  The player's turn count is [(len(history)+1)//2], half the
    length rounded up: 0, 1, 1, 2 and 10 for the lengths 0, 1, 2, 3 and
    19.  With 20 turns or more before the move, the request resolves at
    once: game over, winner [none], turn count unchanged, no call of the
    service, and the same response whatever the candidate is.  When the
    player's word and the opponent's word are both accepted, the turn
    count of the response is the one of the history with both words
    appended, and if that is 20 or more the response has game over and
    winner [none]. *)
Theorem turn_count_and_round_limit :
  (forall history : list str,
      _turn_count_from_history history = (Z.of_nat (length history) + 1) / 2
      /\ Z.of_nat (length history) <= 2 * _turn_count_from_history history
         <= Z.of_nat (length history) + 1
      /\ (length history = 0%nat -> _turn_count_from_history history = 0)
      /\ (length history = 1%nat -> _turn_count_from_history history = 1)
      /\ (length history = 2%nat -> _turn_count_from_history history = 1)
      /\ (length history = 3%nat -> _turn_count_from_history history = 2)
      /\ (length history = 19%nat -> _turn_count_from_history history = 10))
  /\ (forall cfg gen rnd req calls,
        let history := retained_history (req_history req) in
        MAX_TURNS <= _turn_count_from_history history ->
        ai_move cfg gen rnd req calls
        = (Returned {| ok := false; message := msg_round_limit;
                       user_word := None; ai_word := None;
                       next_head_for_user := None;
                       used := elements (list_to_set history : gset str);
                       turn_count := _turn_count_from_history history;
                       game_over := true; winner := Some winner_none |},
           calls)
        /\ forall candidate,
            ai_move cfg gen rnd
              {| req_history := req_history req; req_user_word := candidate |}
              calls
            = ai_move cfg gen rnd req calls)
  /\ (forall cfg gen rnd req calls head word calls',
        let history := retained_history (req_history req) in
        let used : gset str := list_to_set history in
        let w_user := to_hiragana (req_user_word req) in
        let user_turns_after :=
          _turn_count_from_history ((history ++ [w_user]) ++ [word]) in
        _turn_count_from_history history < MAX_TURNS ->
        fst (validate_user_move (req_user_word req)
               (expected_head_of history) used) = true ->
        next_required_head w_user = Some head ->
        acquire_ai_word cfg gen rnd head (used ∪ {[w_user]}) w_user calls
        = (Some word, calls') ->
        Py.truthy word = true ->
        fst (validate_ai_move word head (used ∪ {[w_user]})) = true ->
        exists resp,
          ai_move cfg gen rnd req calls = (Returned resp, calls')
          /\ ok resp = true
          /\ user_word resp = Some w_user
          /\ ai_word resp = Some word
          /\ turn_count resp = user_turns_after
          /\ game_over resp = (MAX_TURNS <=? user_turns_after)
          /\ (MAX_TURNS <= user_turns_after ->
              game_over resp = true /\ winner resp = Some winner_none)
          /\ (user_turns_after < MAX_TURNS ->
              game_over resp = false /\ winner resp = None)).
Proof.
  split; [| split].
  - intros history. unfold _turn_count_from_history.
    repeat split; try (intros ->; reflexivity).
    + apply Z.lt_succ_r. rewrite (Z.mul_comm 2).
      pose proof (Z.mul_succ_div_gt (Z.of_nat (length history) + 1) 2). lia.
    + pose proof (Z.mul_div_le (Z.of_nat (length history) + 1) 2). lia.
  - intros cfg gen rnd req calls history Hlim.
    rewrite ai_move_round_limit by exact Hlim. split; [reflexivity |].
    intros candidate. by rewrite ai_move_round_limit by exact Hlim.
  - intros cfg gen rnd req calls h word calls' history used w_user after
      Hlim Hok Hhead Hacq Hword Hai.
    destruct (validate_user_move _ _ _) as [ok_user msg] eqn:Hval.
    simpl in Hok. subst ok_user.
    rewrite (ai_move_accepted _ _ _ _ _ msg) by assumption.
    fold history used w_user. rewrite Hhead, Hacq.
    unfold resolve_exchange. cbn [Py.truthy_opt default from_option id].
    rewrite Hword.
    destruct (validate_ai_move word h (used ∪ {[w_user]})) as [ok_ai msg_ai].
    simpl in Hai. subst ok_ai. cbn [negb]. fold after.
    eexists. split; [reflexivity |]. cbn.
    repeat split; destruct (Z.leb_spec MAX_TURNS after); try reflexivity; lia.
Qed.

(** A history of 19 entries; the round limit after 39 entries; the
    twentieth turn: 38 entries, the candidate [あか], the fallback word
    [かめ]. *)
Lemma turn_count_and_round_limit_witness :
  _turn_count_from_history (replicate 19 []) = 10
  /\ (exists resp,
         ai_move false no_reply 0%nat req_limit_empty 0%nat
         = (Returned resp, 0%nat)
         /\ turn_count resp = 20
         /\ game_over resp = true
         /\ winner resp = Some winner_none)
  /\ (exists resp,
         ai_move false no_reply 0%nat req_last_turn 0%nat
         = (Returned resp, 0%nat)
         /\ turn_count resp = 20
         /\ game_over resp = true
         /\ winner resp = Some winner_none).
Proof.
  destruct turn_count_and_round_limit as (Hcount & Hlimit & Hexchange).
  split; [| split].
  - apply (Hcount (replicate 19 [])). reflexivity.
  - eexists. split.
    + apply (Hlimit false no_reply 0%nat req_limit_empty 0%nat).
      vm_compute. discriminate.
    + repeat split.
  - destruct (Hexchange false no_reply 0%nat req_last_turn 0%nat
                [0x304B] [0x304B; 0x3081] 0%nat)
      as (resp & Hrun & _ & _ & _ & Hturn & _ & Hover & _);
      try (vm_compute; reflexivity).
    exists resp. split; [exact Hrun |]. split; [exact Hturn |].
    apply Hover. vm_compute. discriminate.
Defined.

(** ** C1: the order of the player's checks, and the rejection *)

(** C1 as stated fails where the round limit is reached.  With 39
    entries in the history and an empty candidate, check 1 fails, yet the
    response is the round limit's: winner [none] and turn count 20, not
    winner [ai] and turn count 21. *)
Lemma rejection_fails_at_round_limit :
  let history := retained_history (req_history req_limit_empty) in
  fst (validate_user_move (req_user_word req_limit_empty)
         (expected_head_of history) (list_to_set history)) = false
  /\ ~ exists resp,
         ai_move false no_reply 0%nat req_limit_empty 0%nat
         = (Returned resp, 0%nat)
         /\ ok resp = false
         /\ game_over resp = true
         /\ winner resp = Some winner_ai
         /\ turn_count resp = _turn_count_from_history history + 1.
Proof.
  split; [vm_compute; reflexivity |].
  intros (resp & Hrun & _ & _ & Hwin & _).
  vm_compute in Hrun. injection Hrun as <-. discriminate Hwin.
Qed.

(** C1, amended.  [validate_user_move] applies the five checks in the
    stated order to the normalized word and the first failure gives the
    message; and in every request below the round limit (fewer than 20
    turns before the move) in which a check fails, the handler returns a
    response with ok false, game over, winner [ai], the message of the
    validation and the turn count before the move plus one.  The head
    the handler asks for is always none or one syllable. *)
Theorem player_checks_in_order_and_rejection :
  (forall raw requiredHead used,
      validate_user_move raw (syllable_str requiredHead) used
      = first_failure
          [ (non_empty (to_hiragana raw), msg_empty);
            (script_pure (to_hiragana raw), msg_not_hiragana);
            (not_repeated (to_hiragana raw) used, msg_repeated);
            (tail_allowed (to_hiragana raw), msg_end_n);
            (head_matches (to_hiragana raw) requiredHead,
             msg_wrong_head (default [] (syllable_str requiredHead))) ])
  /\ (forall cfg gen rnd req calls,
        let history := retained_history (req_history req) in
        let used : gset str := list_to_set history in
        let verdict :=
          validate_user_move (req_user_word req)
            (expected_head_of history) used in
        _turn_count_from_history history < MAX_TURNS ->
        fst verdict = false ->
        ai_move cfg gen rnd req calls
        = (Returned {| ok := false; message := snd verdict;
                       user_word := Some (to_hiragana (req_user_word req));
                       ai_word := None; next_head_for_user := None;
                       used := elements used;
                       turn_count := _turn_count_from_history history + 1;
                       game_over := true; winner := Some winner_ai |},
           calls))
  /\ (forall history,
        exists requiredHead,
          expected_head_of history = syllable_str requiredHead).
Proof.
  split; [| split].
  - intros raw requiredHead used. apply validate_user_move_checks.
  - intros cfg gen rnd req calls history used verdict Hlim Hfail.
    subst verdict.
    destruct (validate_user_move _ _ _) as [ok_user msg] eqn:Hval.
    simpl in Hfail. subst ok_user.
    by rewrite (ai_move_rejected _ _ _ _ _ msg).
  - intros history. unfold expected_head_of, next_required_head.
    destruct (last history) as [word|]; [| by exists None].
    rewrite normalize_last_char_last.
    destruct (last (strip_trailing_prolong_mark word)) as [ch|];
      [by exists (Some (small_to_large ch)) | by exists None].
Qed.

(** [めろん] as the first word: rejected for its tail. *)
Lemma player_checks_in_order_and_rejection_witness :
  _turn_count_from_history (retained_history (req_history req_melon))
    < MAX_TURNS
  /\ ai_move false no_reply 0%nat req_melon 0%nat
     = (Returned {| ok := false; message := msg_end_n;
                    user_word := Some [0x3081; 0x308D; 0x3093];
                    ai_word := None; next_head_for_user := None;
                    used := [];
                    turn_count := 1;
                    game_over := true; winner := Some winner_ai |}, 0%nat).
Proof.
  split; [reflexivity |].
  apply (proj1 (proj2 player_checks_in_order_and_rejection)
           false no_reply 0%nat req_melon 0%nat); reflexivity.
Defined.

(** ** C9: a valid word without a tail *)

(** C9 as stated fails where the round limit is reached.  The candidate
    [ー] passes the player's validation (no head is required after an
    entry that normalizes to the empty word) and has no effective tail,
    yet with 39 entries in the history the handler returns the round
    limit's response and raises nothing. *)
Lemma client_error_fails_at_round_limit :
  let history := retained_history (req_history req_limit_mark) in
  fst (validate_user_move (req_user_word req_limit_mark)
         (expected_head_of history) (list_to_set history)) = true
  /\ normalize_last_char (to_hiragana (req_user_word req_limit_mark)) = None
  /\ (exists resp,
         ai_move false no_reply 0%nat req_limit_mark 0%nat
         = (Returned resp, 0%nat))
  /\ ~ exists status detail,
         ai_move false no_reply 0%nat req_limit_mark 0%nat
         = (HTTPException status detail, 0%nat).
Proof.
  split; [vm_compute; reflexivity |].
  split; [vm_compute; reflexivity |].
  split.
  - eexists. vm_compute. reflexivity.
  - intros (status & detail & Hrun). vm_compute in Hrun. discriminate Hrun.
Qed.

(** C9, amended.  In every request below the round limit in which the
    candidate passes the player's validation and the normalized word has
    no effective tail, the handler raises the HTTP exception with status
    400 and returns no response; the service is not called. *)
Theorem valid_word_without_tail_raises cfg gen rnd req calls :
  let history := retained_history (req_history req) in
  let used : gset str := list_to_set history in
  _turn_count_from_history history < MAX_TURNS ->
  fst (validate_user_move (req_user_word req)
         (expected_head_of history) used) = true ->
  normalize_last_char (to_hiragana (req_user_word req)) = None ->
  ai_move cfg gen rnd req calls
  = (HTTPException 400 msg_empty_word_detail, calls).
Proof.
  intros history used Hlim Hok Htail.
  destruct (validate_user_move _ _ _) as [ok_user msg] eqn:Hval.
  simpl in Hok. subst ok_user.
  rewrite (ai_move_accepted _ _ _ _ _ msg) by assumption.
  unfold next_required_head. by rewrite Htail.
Qed.

(** The candidate [ー] as the first word. *)
Lemma valid_word_without_tail_raises_witness :
  normalize_last_char (to_hiragana (req_user_word req_mark)) = None
  /\ ai_move false no_reply 0%nat req_mark 0%nat
     = (HTTPException 400 msg_empty_word_detail, 0%nat).
Proof.
  split; [reflexivity |].
  apply (valid_word_without_tail_raises false no_reply 0%nat req_mark 0%nat);
    reflexivity.
Defined.

(** ** C8: a word that was used *)

(** C8 as stated fails for the empty word.  The raw history entry [A]
    is kept as the empty word, so the empty word is in the used set; as a
    candidate it fails check 1, with the message of the empty word and
    not the one of a repeated word. *)
Lemma used_empty_word_not_reported_repeated :
  let used : gset str := list_to_set (retained_history [[0x0041]]) in
  [] ∈ used
  /\ validate_user_move [] None used = (false, msg_empty)
  /\ validate_user_move [] None used <> (false, msg_repeated).
Proof.
  split; [| split].
  - apply elem_of_list_to_set, list_elem_of_In. vm_compute. auto.
  - vm_compute. reflexivity.
  - vm_compute. discriminate.
Qed.

(** C8, amended.  For every word of the used set that is non-empty and
    made of canonical syllabary characters and prolongation marks only,
    and for any required head, validating the word as the player's
    candidate fails with the message of a repeated word. *)
Theorem used_word_reported_repeated
    (w : str) (expected_head : option str) (used : gset str) :
  w ∈ used ->
  w <> [] ->
  Forall (fun ch => in_hiragana_class ch = true) w ->
  validate_user_move w expected_head used = (false, msg_repeated).
Proof.
  intros Hin Hne Hpure. unfold validate_user_move.
  rewrite is_hiragana_only_normalized, (to_hiragana_pure w Hpure).
  destruct w as [|c w']; [contradiction |]. cbn [Py.truthy negb andb].
  assert (forallb in_hiragana_class (c :: w') = true) as ->.
  { clear -Hpure. induction Hpure as [|ch l Hch _ IH]; [reflexivity |].
    simpl. by rewrite Hch, IH. }
  cbn [negb].
  by rewrite (bool_decide_eq_true_2 _ Hin).
Qed.

(** [ねこ] was played; it is refused whatever head is asked for. *)
Lemma used_word_reported_repeated_witness :
  validate_user_move [0x306D; 0x3053] (Some [0x3042])
    {[ [0x306D; 0x3053] ]}
  = (false, msg_repeated).
Proof.
  apply used_word_reported_repeated.
  - apply elem_of_singleton. reflexivity.
  - discriminate.
  - repeat constructor.
Defined.

(** ** C7: the order of the opponent's checks *)

Lemma first_failure_passes checks :
  fst (first_failure checks) = forallb fst checks.
Proof.
  induction checks as [|[passed msg] rest IH]; [reflexivity |].
  simpl. by destruct passed.
Qed.

(** C7 as stated fails on the order.  The word [あ] is in the used set
    and the required head is [い]: in the claimed order the repetition is
    met first, but [validate_ai_move] compares the head before it looks
    at the used set and reports the head. *)
Lemma opponent_checks_not_in_claimed_order :
  let used : gset str := {[ [0x3042] ]} in
  validateOpponent_as_claimed (to_hiragana [0x3042]) 0x3044 used
  = (false, msg_ai_repeated)
  /\ validate_ai_move [0x3042] [0x3044] used = (false, msg_ai_head)
  /\ validate_ai_move [0x3042] [0x3044] used
     <> validateOpponent_as_claimed (to_hiragana [0x3042]) 0x3044 used.
Proof.
  split; [vm_compute; reflexivity |].
  split; [vm_compute; reflexivity |].
  vm_compute. discriminate.
Qed.

(** C7, amended.  [validate_ai_move] checks, in this order: the
    normalized word is non-empty and script-pure (one message for both),
    its head, mapped through small to large, equals the required head,
    the word is not in the used set, the tail is not the taboo syllable;
    the first failure gives the message.  These are the checks of the
    player's validation with the head supplied: both accept the same
    words. *)
Theorem opponent_checks_in_order
    (raw : str) (requiredHead : Z) (used : gset str) :
  validate_ai_move raw [requiredHead] used
  = first_failure
      [ (non_empty (to_hiragana raw) && script_pure (to_hiragana raw),
         msg_ai_not_hiragana);
        (head_matches (to_hiragana raw) (Some requiredHead), msg_ai_head);
        (not_repeated (to_hiragana raw) used, msg_ai_repeated);
        (tail_allowed (to_hiragana raw), msg_ai_end_n) ]
  /\ fst (validate_ai_move raw [requiredHead] used)
     = fst (validate_user_move raw (Some [requiredHead]) used).
Proof.
  assert (validate_ai_move raw [requiredHead] used
          = first_failure
              [ (non_empty (to_hiragana raw) && script_pure (to_hiragana raw),
                 msg_ai_not_hiragana);
                (head_matches (to_hiragana raw) (Some requiredHead),
                 msg_ai_head);
                (not_repeated (to_hiragana raw) used, msg_ai_repeated);
                (tail_allowed (to_hiragana raw), msg_ai_end_n) ]) as Hcode.
  { unfold validate_ai_move.
    rewrite is_hiragana_only_normalized, violates_end_n_tail.
    set (w := to_hiragana raw).
    unfold non_empty, script_pure, not_repeated, tail_allowed, head_matches,
      first_failure.
    destruct w as [|c w']; [reflexivity |].
    rewrite (bool_decide_eq_true_2 (c :: w' ≠ [])) by discriminate.
    cbn [Py.truthy negb andb orb first_char head].
    destruct (forallb in_hiragana_class (c :: w')); cbn [negb];
      [| reflexivity].
    cbn [fmap option_fmap option_map].
    destruct (decide (small_to_large c = requiredHead)) as [Heq|Hne].
    2: { rewrite (bool_decide_eq_true_2 ([small_to_large c] ≠ [requiredHead]))
           by congruence.
         rewrite (bool_decide_eq_false_2
                    (Some (small_to_large c) = Some requiredHead))
           by congruence.
         reflexivity. }
    rewrite (bool_decide_eq_false_2 ([small_to_large c] ≠ [requiredHead]))
      by (rewrite Heq; auto).
    rewrite (bool_decide_eq_true_2
               (Some (small_to_large c) = Some requiredHead))
      by congruence.
    destruct (decide (c :: w' ∈ used)) as [Hin|Hin].
    { rewrite (bool_decide_eq_true_2 _ Hin).
      rewrite (bool_decide_eq_false_2 (c :: w' ∉ used)) by auto.
      reflexivity. }
    rewrite (bool_decide_eq_false_2 _ Hin), (bool_decide_eq_true_2 _ Hin).
    destruct (decide (normalize_last_char (c :: w') = Some [ch_n])) as [Ht|Ht].
    { rewrite (bool_decide_eq_true_2 _ Ht).
      rewrite (bool_decide_eq_false_2 (_ ≠ _)) by auto. reflexivity. }
    by rewrite (bool_decide_eq_false_2 _ Ht), (bool_decide_eq_true_2 _ Ht). }
  split; [exact Hcode |].
  rewrite Hcode.
  change (Some [requiredHead]) with (syllable_str (Some requiredHead)).
  rewrite validate_user_move_checks. unfold validateChallenger.
  rewrite !first_failure_passes. cbn [forallb fst].
  destruct (non_empty _), (script_pure _), (head_matches _ _),
    (not_repeated _ _), (tail_allowed _); reflexivity.
Qed.

(** ** C6: the opponent has no valid word *)

Lemma acquire_ai_word_cases cfg gen rnd head used w_user calls :
  let first := _gemini_generate cfg gen head used (Some w_user) calls in
  let second :=
    _gemini_generate cfg gen head used (Some w_user) (snd first) in
  acquire_ai_word cfg gen rnd head used w_user calls
  = if Py.truthy_opt (fst first)
    then
      if fst (validate_ai_move (default [] (fst first)) head used)
      then first
      else (if Py.truthy_opt (fst second) then fst second
            else _choose_fallback rnd head used, snd second)
    else (_choose_fallback rnd head used, snd first).
Proof.
  intros first second. unfold acquire_ai_word, bind, ret.
  subst second. subst first.
  destruct (_gemini_generate cfg gen head used (Some w_user) calls)
    as [a1 n1].
  cbn [fst snd]. destruct (Py.truthy_opt a1) eqn:H1; cbn [negb].
  - destruct (validate_ai_move _ _ _) as [[] ?]; cbn [negb fst].
    + by rewrite H1.
    + destruct (_gemini_generate cfg gen head used (Some w_user) n1)
        as [a2 n2].
      cbn [fst snd]. by destruct (Py.truthy_opt a2).
  - by rewrite H1.
Qed.

Lemma resolve_exchange_no_word history used turns w_user head ai_word :
  Py.truthy_opt ai_word = false ->
  resolve_exchange history used turns w_user head ai_word
  = Returned {| ok := true; message := msg_ai_no_answer;
                user_word := Some w_user; ai_word := None;
                next_head_for_user := None; used := elements used;
                turn_count := turns + 1;
                game_over := true; winner := Some winner_user |}.
Proof. intros H. unfold resolve_exchange. by rewrite H. Qed.

Lemma resolve_exchange_invalid history used turns w_user head ai_word :
  Py.truthy_opt ai_word = true ->
  fst (validate_ai_move (default [] ai_word) head used) = false ->
  resolve_exchange history used turns w_user head ai_word
  = Returned {| ok := true; message := msg_ai_broke_rules;
                user_word := Some w_user; ai_word := ai_word;
                next_head_for_user := None; used := elements used;
                turn_count := turns + 1;
                game_over := true; winner := Some winner_user |}.
Proof.
  intros H Hbad. unfold resolve_exchange. rewrite H. cbn [negb].
  destruct ai_word as [word|]; [| discriminate]. cbn [default from_option id] in *.
  destruct (validate_ai_move word head used) as [ok_ai msg_ai].
  simpl in Hbad. by subst ok_ai.
Qed.

Lemma resolve_exchange_returns history used turns w_user head ai_word :
  exists resp,
    resolve_exchange history used turns w_user head ai_word = Returned resp
    /\ ok resp = true
    /\ user_word resp = Some w_user.
Proof.
  unfold resolve_exchange.
  destruct (negb _); [eexists; repeat split; reflexivity |].
  destruct (validate_ai_move _ _ _) as [[] ?];
    eexists; repeat split; reflexivity.
Qed.

(** C6.  The service is called at most twice in a request.  In a
    request that reaches the opponent's turn (below the round limit, the
    player's word valid and with an effective tail), the handler always
    returns a response, never an exception, and whenever the word it
    ends up with is absent or fails [validate_ai_move] the response has
    ok true, game over and winner [user].  This covers: nothing from the
    service and nothing in the fallback table; an invalid first word,
    nothing from the retry and nothing in the fallback table; an invalid
    first word and an invalid retry. *)
Theorem opponent_without_word_loses :
  (forall cfg gen rnd req calls,
      (calls <= snd (ai_move cfg gen rnd req calls) <= calls + 2)%nat)
  /\ (forall cfg gen rnd req calls head,
        let history := retained_history (req_history req) in
        let w_user := to_hiragana (req_user_word req) in
        let used : gset str := list_to_set history ∪ {[w_user]} in
        let first :=
          _gemini_generate cfg gen head used (Some w_user) calls in
        let second :=
          _gemini_generate cfg gen head used (Some w_user) (snd first) in
        let got := acquire_ai_word cfg gen rnd head used w_user calls in
        let invalid (candidate : option str) :=
          fst (validate_ai_move (default [] candidate) head used) = false in
        let player_wins (msg : str) (word : option str) :=
          ai_move cfg gen rnd req calls
          = (Returned {| ok := true; message := msg;
                         user_word := Some w_user; ai_word := word;
                         next_head_for_user := None;
                         used := elements used;
                         turn_count := _turn_count_from_history history + 1;
                         game_over := true; winner := Some winner_user |},
             snd got) in
        _turn_count_from_history history < MAX_TURNS ->
        fst (validate_user_move (req_user_word req)
               (expected_head_of history) (list_to_set history)) = true ->
        next_required_head w_user = Some head ->
        (exists resp,
            ai_move cfg gen rnd req calls = (Returned resp, snd got))
        /\ (Py.truthy_opt (fst got) = false ->
            player_wins msg_ai_no_answer None)
        /\ (Py.truthy_opt (fst got) = true -> invalid (fst got) ->
            player_wins msg_ai_broke_rules (fst got))
        /\ (Py.truthy_opt (fst first) = false ->
            _choose_fallback rnd head used = None ->
            player_wins msg_ai_no_answer None)
        /\ (Py.truthy_opt (fst first) = true -> invalid (fst first) ->
            Py.truthy_opt (fst second) = false ->
            _choose_fallback rnd head used = None ->
            player_wins msg_ai_no_answer None)
        /\ (Py.truthy_opt (fst first) = true -> invalid (fst first) ->
            Py.truthy_opt (fst second) = true -> invalid (fst second) ->
            player_wins msg_ai_broke_rules (fst second))).
Proof.
  split; [intros; apply ai_move_calls |].
  intros cfg gen rnd req calls head history w_user used first second got
    invalid player_wins Hlim Hok Hhead.
  destruct (validate_user_move _ _ _) as [ok_user msg] eqn:Hval.
  simpl in Hok. subst ok_user.
  assert (ai_move cfg gen rnd req calls
          = (resolve_exchange (history ++ [w_user]) used
               (_turn_count_from_history history) w_user head (fst got),
             snd got)) as Hrun.
  { rewrite (ai_move_accepted _ _ _ _ _ msg) by assumption.
    fold history w_user used. rewrite Hhead. fold got. by destruct got. }
  assert (Py.truthy_opt (fst got) = false ->
          player_wins msg_ai_no_answer None) as Hnone.
  { intros Hgot. unfold player_wins. rewrite Hrun.
    by rewrite resolve_exchange_no_word. }
  assert (Py.truthy_opt (fst got) = true -> invalid (fst got) ->
          player_wins msg_ai_broke_rules (fst got)) as Hbad.
  { intros Hgot Hinv. unfold player_wins. rewrite Hrun.
    by rewrite resolve_exchange_invalid. }
  pose proof (acquire_ai_word_cases cfg gen rnd head used w_user calls)
    as Hcases.
  cbv zeta in Hcases. fold first second got in Hcases.
  split; [| split; [exact Hnone | split; [exact Hbad |]]].
  { rewrite Hrun.
    destruct (resolve_exchange_returns (history ++ [w_user]) used
                (_turn_count_from_history history) w_user head (fst got))
      as (resp & -> & _).
    by exists resp. }
  split; [| split].
  - intros H1 Hfb. apply Hnone. rewrite Hcases, H1. cbn [fst]. by rewrite Hfb.
  - intros H1 Hinv1 H2 Hfb. apply Hnone.
    rewrite Hcases, H1. unfold invalid in Hinv1. rewrite Hinv1, H2.
    cbn [fst]. by rewrite Hfb.
  - intros H1 Hinv1 H2 Hinv2.
    assert (fst got = fst second) as Hgot.
    { rewrite Hcases, H1. unfold invalid in Hinv1. by rewrite Hinv1, H2. }
    rewrite <- Hgot. apply Hbad; rewrite Hgot; assumption.
Qed.

(** [かが] as the first word; the fallback table has no word for [が].
    The service is not configured; or it answers [abc] and then raises;
    or it answers [abc] twice.  The player wins each time. *)
Lemma opponent_without_word_loses_witness :
  _choose_fallback 0%nat [0x304C] {[ [0x304B; 0x304C] ]} = None
  /\ ai_move false no_reply 0%nat req_kaga 0%nat
     = (Returned {| ok := true; message := msg_ai_no_answer;
                    user_word := Some [0x304B; 0x304C]; ai_word := None;
                    next_head_for_user := None;
                    used := [[0x304B; 0x304C]];
                    turn_count := 1;
                    game_over := true; winner := Some winner_user |},
        0%nat)
  /\ ai_move true reply_latin_once 0%nat req_kaga 0%nat
     = (Returned {| ok := true; message := msg_ai_no_answer;
                    user_word := Some [0x304B; 0x304C]; ai_word := None;
                    next_head_for_user := None;
                    used := [[0x304B; 0x304C]];
                    turn_count := 1;
                    game_over := true; winner := Some winner_user |},
        2%nat)
  /\ ai_move true reply_latin 0%nat req_kaga 0%nat
     = (Returned {| ok := true; message := msg_ai_broke_rules;
                    user_word := Some [0x304B; 0x304C];
                    ai_word := Some [0x0061; 0x0062; 0x0063];
                    next_head_for_user := None;
                    used := [[0x304B; 0x304C]];
                    turn_count := 1;
                    game_over := true; winner := Some winner_user |},
        2%nat).
Proof.
  split; [vm_compute; reflexivity |].
  split; [| split].
  - pose proof (proj2 opponent_without_word_loses
                  false no_reply 0%nat req_kaga 0%nat [0x304C]) as Hloses.
    cbv zeta in Hloses.
    destruct Hloses as (_ & _ & _ & Hnothing & _).
    + vm_compute. reflexivity.
    + vm_compute. reflexivity.
    + vm_compute. reflexivity.
    + apply Hnothing; vm_compute; reflexivity.
  - pose proof (proj2 opponent_without_word_loses
                  true reply_latin_once 0%nat req_kaga 0%nat [0x304C])
      as Hloses.
    cbv zeta in Hloses.
    destruct Hloses as (_ & _ & _ & _ & Hretry & _).
    + vm_compute. reflexivity.
    + vm_compute. reflexivity.
    + vm_compute. reflexivity.
    + apply Hretry; vm_compute; reflexivity.
  - pose proof (proj2 opponent_without_word_loses
                  true reply_latin 0%nat req_kaga 0%nat [0x304C]) as Hloses.
    cbv zeta in Hloses.
    destruct Hloses as (_ & _ & _ & _ & _ & Htwice).
    + vm_compute. reflexivity.
    + vm_compute. reflexivity.
    + vm_compute. reflexivity.
    + apply Htwice; vm_compute; reflexivity.
Defined.

(** ** C10: history entries without kana *)

Lemma to_hiragana_without_kana entry :
  Forall (fun ch => syllabary_char ch = false) entry ->
  to_hiragana entry = [].
Proof.
  rewrite to_hiragana_bind. induction 1 as [|ch entry Hch _ IH]; [reflexivity |].
  rewrite bind_cons, IH, app_nil_r.
  unfold syllabary_char, ch_kata_small_a, ch_kata_vo in Hch.
  destruct (kana_of_cases ch) as [[E _]|[[_ [Hcl _]]|[_ Hr]]];
    [exact E | rewrite Hcl in Hch; discriminate | lia].
Qed.

(** C10 as stated fails on the acceptance.  After the raw entry [A]
    the last entry kept is the empty word and no head is required.  The
    candidate [ー] passes the player's validation, but it has no
    effective tail and the handler raises the HTTP exception: no
    response accepts it.  With 38 entries before [A] the candidate [ねこ]
    passes the validation as well, but the round limit is reached and
    the response has ok false. *)
Lemma candidate_after_empty_entry_not_accepted :
  (let history := retained_history (req_history req_latin_mark) in
   last history = Some []
   /\ expected_head_of history = None
   /\ _turn_count_from_history history < MAX_TURNS
   /\ validate_user_move (req_user_word req_latin_mark)
        (expected_head_of history) (list_to_set history) = (true, msg_OK)
   /\ ai_move false no_reply 0%nat req_latin_mark 0%nat
      = (HTTPException 400 msg_empty_word_detail, 0%nat)
   /\ ~ exists resp calls',
         ai_move false no_reply 0%nat req_latin_mark 0%nat
         = (Returned resp, calls'))
  /\ (let history := retained_history (req_history req_limit_neko) in
      last history = Some []
      /\ validate_user_move (req_user_word req_limit_neko)
           (expected_head_of history) (list_to_set history) = (true, msg_OK)
      /\ exists resp,
          ai_move false no_reply 0%nat req_limit_neko 0%nat
          = (Returned resp, 0%nat)
          /\ ok resp = false
          /\ user_word resp = None).
Proof.
  split.
  - split; [vm_compute; reflexivity |].
    split; [vm_compute; reflexivity |].
    split; [vm_compute; reflexivity |].
    split; [vm_compute; reflexivity |].
    split; [vm_compute; reflexivity |].
    intros (resp & calls' & Hrun). vm_compute in Hrun. discriminate Hrun.
  - split; [vm_compute; reflexivity |].
    split; [vm_compute; reflexivity |].
    eexists. split; [vm_compute; reflexivity |]. split; reflexivity.
Qed.

(** C10, amended.  A raw history entry that is the empty string is
    dropped.  A non-empty raw entry without a syllabary character
    normalizes to the empty word and stays, at its place, in the history
    and in the used set.  When the last entry kept normalizes to the
    empty word, no head is required and the player's validation is
    checks 1 to 4 alone; in a request below the round limit, a candidate
    that passes them and has an effective tail is accepted, whatever its
    first syllable is: the handler returns a response with ok true that
    carries the player's word. *)
Theorem history_entry_without_kana :
  (forall raw1 raw2,
      retained_history (raw1 ++ [] :: raw2) = retained_history (raw1 ++ raw2))
  /\ (forall raw1 raw2 entry,
        entry <> [] ->
        Forall (fun ch => syllabary_char ch = false) entry ->
        to_hiragana entry = []
        /\ retained_history (raw1 ++ entry :: raw2)
           = retained_history raw1 ++ [] :: retained_history raw2
        /\ [] ∈ (list_to_set (retained_history (raw1 ++ entry :: raw2))
                 : gset str))
  /\ (forall req,
        let history := retained_history (req_history req) in
        let used : gset str := list_to_set history in
        let w_user := to_hiragana (req_user_word req) in
        let checks_1_to_4 :=
          first_failure
            [ (non_empty w_user, msg_empty);
              (script_pure w_user, msg_not_hiragana);
              (not_repeated w_user used, msg_repeated);
              (tail_allowed w_user, msg_end_n) ] in
        last history = Some [] ->
        expected_head_of history = None
        /\ validate_user_move (req_user_word req)
             (expected_head_of history) used = checks_1_to_4
        /\ forall cfg gen rnd calls head,
            _turn_count_from_history history < MAX_TURNS ->
            fst checks_1_to_4 = true ->
            next_required_head w_user = Some head ->
            exists resp calls',
              ai_move cfg gen rnd req calls = (Returned resp, calls')
              /\ ok resp = true
              /\ user_word resp = Some w_user).
Proof.
  split; [| split].
  - intros raw1 raw2. unfold retained_history.
    rewrite !filter_app, filter_cons_False; [reflexivity |]. discriminate.
  - intros raw1 raw2 entry Hne Hnone.
    pose proof (to_hiragana_without_kana entry Hnone) as Hempty.
    assert (retained_history (raw1 ++ entry :: raw2)
            = retained_history raw1 ++ [] :: retained_history raw2) as Hkept.
    { unfold retained_history.
      rewrite filter_app, filter_cons_True by (by destruct entry).
      by rewrite fmap_app, fmap_cons, Hempty. }
    split; [exact Hempty |]. split; [exact Hkept |].
    rewrite Hkept. apply elem_of_list_to_set, elem_of_app. right.
    apply elem_of_cons. by left.
  - intros req history used w_user checks Hlast.
    assert (expected_head_of history = None) as Hhead.
    { unfold expected_head_of. by rewrite Hlast. }
    assert (validate_user_move (req_user_word req)
              (expected_head_of history) used = checks) as Hval.
    { rewrite Hhead. change None with (syllable_str None).
      rewrite validate_user_move_checks. reflexivity. }
    split; [exact Hhead |]. split; [exact Hval |].
    intros cfg gen rnd calls head Hlim Hpass Htail.
    destruct checks as [passed msg]. simpl in Hpass. subst passed.
    rewrite (ai_move_accepted _ _ _ _ _ msg) by assumption.
    fold history used w_user. rewrite Htail.
    destruct (acquire_ai_word _ _ _ _ _ _ _) as [got calls''].
    destruct (resolve_exchange_returns (history ++ [w_user])
                (used ∪ {[w_user]}) (_turn_count_from_history history)
                w_user head got) as (resp & -> & Hok & Huser).
    by exists resp, calls''.
Qed.

(** The raw entry [A] is kept as the empty word; after it the word
    [ねこ] is accepted without a required head, and the fallback answers
    [ことり]. *)
Lemma history_entry_without_kana_witness :
  retained_history (req_history req_after_latin) = [[]]
  /\ [] ∈ (list_to_set (retained_history ([] ++ [0x0041] :: []))
           : gset str)
  /\ next_required_head (to_hiragana (req_user_word req_after_latin))
     = Some [0x3053]
  /\ exists resp calls',
      ai_move false no_reply 0%nat req_after_latin 0%nat
      = (Returned resp, calls')
      /\ ok resp = true
      /\ user_word resp = Some [0x306D; 0x3053].
Proof.
  destruct history_entry_without_kana as (_ & Hkept & Hlast).
  split; [reflexivity |]. split; [| split; [reflexivity |]].
  - apply (Hkept [] [] [0x0041]); [discriminate | repeat constructor].
  - pose proof (Hlast req_after_latin) as Hreq.
    cbv zeta in Hreq. destruct Hreq as (_ & _ & Haccept).
    + reflexivity.
    + apply (Haccept false no_reply 0%nat 0%nat [0x3053]).
      * vm_compute. reflexivity.
      * vm_compute. reflexivity.
      * vm_compute. reflexivity.
Defined.

(** * Further properties of the code *)

(** ** The normalizer *)

(** [to_hiragana] distributes over concatenation, although it strips
    both ends of its input first; white space anywhere in the input has
    no effect, and the output is never longer than the input. *)
Theorem to_hiragana_concat :
  (forall s t, to_hiragana (s ++ t) = to_hiragana s ++ to_hiragana t)
  /\ (forall s,
        to_hiragana (filter (fun ch => Py.isspace ch = false) s)
        = to_hiragana s)
  /\ (forall s, (length (to_hiragana s) <= length s)%nat).
Proof.
  split; [| split].
  - intros s t. by rewrite !to_hiragana_bind, bind_app.
  - intros s. rewrite !to_hiragana_bind.
    induction s as [|ch s IH]; [reflexivity |].
    destruct (Py.isspace ch) eqn:Hs.
    + rewrite filter_cons_False by congruence.
      by rewrite bind_cons, (kana_of_space ch Hs).
    + rewrite filter_cons_True by exact Hs. by rewrite !bind_cons, IH.
  - intros s. rewrite to_hiragana_bind.
    induction s as [|ch s IH]; [reflexivity |].
    rewrite bind_cons, length_app. pose proof (kana_of_length ch).
    simpl. lia.
Qed.

(** A word written in the katakana that have a hiragana counterpart
    ([ァ] to [ヶ], the hiragana shifted by 0x60) is normalized to the
    hiragana word, and a hiragana word is left as it is. *)
Theorem to_hiragana_of_katakana (w : str) :
  Forall (fun ch => ch_small_a <= ch <= ch_small_ke) w ->
  to_hiragana ((fun ch => ch + 0x60) <$> w) = w
  /\ to_hiragana w = w.
Proof.
  intros Hw. rewrite !to_hiragana_bind.
  induction Hw as [|ch w Hch _ [IHk IHh]]; [split; reflexivity |].
  rewrite fmap_cons, !bind_cons, IHk, IHh.
  unfold ch_small_a, ch_small_ke in Hch.
  assert (kana_of (ch + 96) = [ch]) as ->.
  { unfold kana_of, to_hiragana_step, _KATAKANA_TO_HIRAGANA_OFFSET,
      ch_small_a, ch_small_ke, ch_kata_small_a, ch_kata_vo, ch_prolong.
    destruct (Py.isspace (ch + 96)) eqn:Hs;
      [apply isspace_low in Hs; exfalso; lia |].
    destruct ((12353 <=? ch + 96) && (ch + 96 <=? 12438)
              || (ch + 96 =? 12540)) eqn:H1; [exfalso; lia |].
    destruct ((12449 <=? ch + 96) && (ch + 96 <=? 12538)
              || (ch + 96 =? 12540)) eqn:H2; [| exfalso; lia].
    destruct (ch + 96 =? 12540) eqn:H3; [exfalso; lia |].
    simpl. f_equal. lia. }
  rewrite (kana_of_class ch); [split; reflexivity |].
  unfold in_hiragana_class, ch_small_a, ch_small_ke, ch_prolong. lia.
Qed.

(** [ネコ] gives [ねこ]. *)
Lemma to_hiragana_of_katakana_witness :
  to_hiragana [0x30CD; 0x30B3] = [0x306D; 0x3053].
Proof.
  apply (to_hiragana_of_katakana [0x306D; 0x3053]).
  repeat constructor; unfold ch_small_a, ch_small_ke; lia.
Defined.

(** [is_hiragana_only] holds exactly for a non-empty string of
    characters of the class [[ぁ-ゖー]], and for such a string followed
    by one line feed, which the [$] of the pattern lets through. *)
Theorem is_hiragana_only_spec (s : str) :
  is_hiragana_only s = true
  <-> exists w,
        w <> []
        /\ Forall (fun ch => in_hiragana_class ch = true) w
        /\ (s = w \/ s = w ++ [ch_newline]).
Proof.
  assert (forall t, hiragana_rest t = true <->
            exists w, Forall (fun ch => in_hiragana_class ch = true) w
                      /\ (t = w \/ t = w ++ [ch_newline])) as Hrest.
  { induction t as [|ch t IH].
    - split; [| reflexivity]. intros _. exists [].
      split; [constructor | by left].
    - simpl. destruct (in_hiragana_class ch) eqn:Hch.
      + rewrite IH. split.
        * intros (w & Hw & Hs). exists (ch :: w).
          split; [by constructor |].
          destruct Hs as [->| ->]; [by left | by right].
        * intros (w & Hw & Hs). destruct w as [|c w].
          { destruct Hs as [Hs|Hs]; simplify_eq/=;
              try (vm_compute in Hch; discriminate). }
          inversion Hw; subst. exists w. split; [assumption |].
          destruct Hs as [Hs|Hs]; simplify_eq/=; [by left | by right].
      + split.
        * intros [Hnl Ht]%andb_prop. apply Z.eqb_eq in Hnl. subst ch.
          destruct t; [| discriminate]. exists [].
          split; [constructor | by right].
        * intros (w & Hw & Hs). destruct w as [|c w].
          { destruct Hs as [Hs|Hs]; simplify_eq/=; try reflexivity. }
          inversion Hw; subst.
          destruct Hs as [Hs|Hs]; simplify_eq/=; congruence. }
  destruct s as [|ch s].
  - split; [discriminate |]. intros (w & Hne & _ & [Hs|Hs]).
    + congruence.
    + by destruct w.
  - simpl. rewrite andb_true_iff, Hrest. split.
    + intros (Hch & w & Hw & Hs). exists (ch :: w).
      split; [discriminate |]. split; [by constructor |].
      destruct Hs as [->| ->]; [by left | by right].
    + intros (w & Hne & Hw & Hs). destruct w as [|c w]; [contradiction |].
      inversion Hw; subst.
      destruct Hs as [Hs|Hs]; simplify_eq/=;
        (split; [assumption |]); exists w; (split; [assumption |]);
        [by left | by right].
Qed.

(** ** The rule engine *)

Lemma normalize_last_char_none_iff (s : str) :
  normalize_last_char s = None <-> s = [] \/ s = [ch_prolong].
Proof.
  rewrite normalize_last_char_last.
  induction s as [|ch t _] using rev_ind; [by split; [left |] |].
  rewrite strip_trailing_snoc.
  destruct (Z.eqb_spec ch ch_prolong) as [->|Hne].
  - rewrite fmap_None, last_None. split.
    + intros ->. by right.
    + intros [H|H]; [by destruct t |].
      destruct t as [|? [|? ?]]; simplify_eq/=; reflexivity.
  - rewrite last_snoc. split; [discriminate |].
    intros [H|H]; [by destruct t |].
    destruct t as [|? [|? ?]]; simplify_eq/=.
Qed.




(** [violates_end_n] holds exactly for the words that end in [ん] or in
    [ん] followed by one prolongation mark; after two marks it does not. *)
Theorem violates_end_n_spec (s : str) :
  violates_end_n s = true
  <-> (exists t, s = t ++ [ch_n]) \/ (exists t, s = t ++ [ch_n; ch_prolong]).
Proof.
  rewrite violates_end_n_last, bool_decide_eq_true.
  induction s as [|c s _] using rev_ind.
  { split; [discriminate |]. intros [[t H]|[t H]]; by destruct t. }
  rewrite strip_trailing_snoc.
  destruct (Z.eqb_spec c ch_prolong) as [->|Hne].
  - rewrite last_Some. split.
    + intros [t ->]. right. exists t. by rewrite <- app_assoc.
    + intros [[t H]|[t H]].
      * apply app_inj_tail in H as [_ H]. discriminate H.
      * change (t ++ [ch_n; ch_prolong]) with (t ++ [ch_n] ++ [ch_prolong])
          in H.
        rewrite app_assoc in H. apply app_inj_tail in H as [-> _].
        by exists t.
  - rewrite last_snoc. split.
    + intros [= ->]. left. by exists s.
    + intros [[t H]|[t H]].
      * apply app_inj_tail in H as [_ ->]. reflexivity.
      * change (t ++ [ch_n; ch_prolong]) with (t ++ [ch_n] ++ [ch_prolong])
          in H.
        rewrite app_assoc in H. apply app_inj_tail in H as [_ ->].
        contradiction.
Qed.

Lemma script_pure_Forall (w : str) :
  forallb in_hiragana_class w = true
  <-> Forall (fun ch => in_hiragana_class ch = true) w.
Proof.
  induction w as [|ch w IH]; [by split; [constructor |] |].
  simpl. rewrite andb_true_iff, IH. split.
  - intros [H1 H2]. by constructor.
  - by inversion 1.
Qed.

(** [validate_user_move] accepts exactly when the normalized word is
    non-empty, made of characters of the class, not in the used set, not
    ending on [ん], and the expected head is absent, the empty string, or
    the one-character string of the word's first character mapped
    through small to large (so an expected head of two characters is
    never met).  The message is [OK] exactly when the move is accepted. *)
Theorem validate_user_move_accepts
    (raw : str) (expected_head : option str) (used : gset str) :
  let w := to_hiragana raw in
  let verdict := validate_user_move raw expected_head used in
  (fst verdict = true
   <-> (w ≠ []
        /\ Forall (fun ch => in_hiragana_class ch = true) w
        /\ (w ∉ used)
        /\ normalize_last_char w <> Some [ch_n]
        /\ (expected_head = None \/ expected_head = Some []
            \/ exists ch, head w = Some ch
                          /\ expected_head = Some [small_to_large ch])))
  /\ (fst verdict = true <-> snd verdict = msg_OK).
Proof.
  intros w verdict. subst verdict w. unfold validate_user_move.
  rewrite is_hiragana_only_normalized, violates_end_n_tail.
  destruct (to_hiragana raw) as [|c w'].
  { cbn. split; split; try discriminate. by intros [H _]. }
  cbn [Py.truthy negb andb].
  destruct (forallb in_hiragana_class (c :: w')) eqn:Hpure; cbn [negb].
  2: { cbn. split; split; try discriminate. intros (_ & HF & _).
       apply script_pure_Forall in HF. congruence. }
  assert (Forall (fun ch => in_hiragana_class ch = true) (c :: w')) as HF
    by by apply script_pure_Forall.
  destruct (decide (c :: w' ∈ used)) as [Hin|Hin].
  { rewrite (bool_decide_eq_true_2 _ Hin). cbn.
    split; split; try discriminate. by intros (_ & _ & H & _). }
  rewrite (bool_decide_eq_false_2 _ Hin).
  destruct (decide (normalize_last_char (c :: w') = Some [ch_n])) as [Ht|Ht].
  { rewrite (bool_decide_eq_true_2 _ Ht). cbn.
    split; split; try discriminate. by intros (_ & _ & _ & H & _). }
  rewrite (bool_decide_eq_false_2 _ Ht).
  destruct expected_head as [[|r0 r]|]; cbn [Py.truthy first_char head].
  - cbn. split; [| done]. split; [| done]. intros _.
    repeat split; try done. right. by left.
  - cbn [hd_error]. destruct (decide ([small_to_large c] = r0 :: r)) as [He|He].
    + rewrite (bool_decide_eq_false_2 ([small_to_large c] ≠ r0 :: r))
        by auto.
      cbn. split; [| done]. split; [| done]. intros _.
      repeat split; try done. right. right. exists c. by rewrite He.
    + rewrite (bool_decide_eq_true_2 ([small_to_large c] ≠ r0 :: r))
        by exact He.
      cbn. split; split; try discriminate.
      intros (_ & _ & _ & _ & [H|[H|(ch & [= <-] & [= H])]]);
        try discriminate. subst. contradiction.
  - cbn. split; [| done]. split; [| done]. intros _.
    repeat split; try done. by left.
Qed.

(** ** The fallback table *)

Lemma FALLBACK_DICT_rows head words :
  FALLBACK_DICT !! head = Some words -> fallback_row_ok (head, words) = true.
Proof.
  intros Hrow.
  pose proof (proj2 (elem_of_map_to_list FALLBACK_DICT head words) Hrow)
    as Hin.
  assert (forallb fallback_row_ok (map_to_list FALLBACK_DICT) = true) as Hall
    by (vm_compute; reflexivity).
  revert Hin Hall. generalize (map_to_list FALLBACK_DICT).
  intros rows Hin Hall.
  rewrite forallb_forall in Hall. by apply Hall, list_elem_of_In.
Qed.

Lemma fallback_word_shape head words w :
  FALLBACK_DICT !! head = Some words ->
  w ∈ words ->
  exists key rest,
    head = [key] /\ w = key :: rest /\ small_to_large key = key
    /\ Forall (fun ch => in_hiragana_class ch = true) w.
Proof.
  intros Hrow Hw. apply FALLBACK_DICT_rows in Hrow.
  unfold fallback_row_ok in Hrow. cbn [fst snd] in Hrow.
  destruct head as [|key [|? ?]]; try discriminate.
  apply andb_prop in Hrow as [Hkey Hwords].
  rewrite forallb_forall in Hwords.
  apply list_elem_of_In, Hwords in Hw.
  destruct w as [|ch rest]; [discriminate |].
  apply andb_prop in Hw as [Hch Hpure].
  apply Z.eqb_eq in Hch, Hkey. subst ch.
  exists key, rest. repeat split; try assumption.
  by apply script_pure_Forall.
Qed.

Lemma _choose_fallback_some
    (rnd : nat) (head : str) (used : gset str) (w : str) :
  _choose_fallback rnd head used = Some w ->
  w ∈ default [] (FALLBACK_DICT !! head) /\ w ∉ used.
Proof.
  unfold _choose_fallback.
  generalize (default [] (FALLBACK_DICT !! head)). intros words.
  destruct (filter (fun w0 => w0 ∉ used) words) as [|c cs] eqn:Hc;
    [discriminate |].
  intros Hw%list_elem_of_lookup_2. rewrite <- Hc in Hw.
  by apply list_elem_of_filter in Hw as [Hfresh Hw].
Qed.

(** A word chosen by [_choose_fallback] is listed under the head in
    [FALLBACK_DICT] and is not in the used set; nothing is chosen exactly
    when every word listed under the head is used, which includes a head
    without an entry. *)
Theorem _choose_fallback_spec :
  (forall (rnd : nat) (head : str) (used : gset str) (w : str),
      _choose_fallback rnd head used = Some w ->
      w ∈ default [] (FALLBACK_DICT !! head) /\ w ∉ used)
  /\ (forall (rnd : nat) (head : str) (used : gset str),
        _choose_fallback rnd head used = None
        <-> forall w, w ∈ default [] (FALLBACK_DICT !! head) -> w ∈ used).
Proof.
  split; [exact _choose_fallback_some |].
  - intros rnd head used. unfold _choose_fallback.
    generalize (default [] (FALLBACK_DICT !! head)). intros words.
    destruct (filter (fun w0 => w0 ∉ used) words) as [|c cs] eqn:Hc.
    + split; [| reflexivity]. intros _ w Hw.
      destruct (decide (w ∈ used)) as [|Hfresh]; [assumption |].
      assert (w ∈ filter (fun w0 => w0 ∉ used) words) as Hin
        by (apply list_elem_of_filter; by split).
      rewrite Hc in Hin. by apply elem_of_nil in Hin.
    + split.
      * intros Hnone. apply lookup_ge_None in Hnone.
        pose proof (Nat.mod_upper_bound rnd (length (c :: cs))) as Hlt.
        cbn [length] in *. lia.
      * intros Hall. exfalso.
        assert (c ∈ filter (fun w0 => w0 ∉ used) words) as Hin
          by (rewrite Hc; left).
        apply list_elem_of_filter in Hin as [Hfresh Hin]. auto.
Qed.

(** With [かめ] used, the draw 0 for the head [か] gives [かさ]. *)
Lemma _choose_fallback_spec_witness :
  [0x304B; 0x3055] ∈ default [] (FALLBACK_DICT !! [0x304B])
  /\ [0x304B; 0x3055] ∉ ({[ [0x304B; 0x3081] ]} : gset str).
Proof.
  apply (proj1 _choose_fallback_spec 0%nat [0x304B] {[ [0x304B; 0x3081] ]}).
  vm_compute. reflexivity.
Defined.

(** A word chosen by [_choose_fallback] is already normalized, and
    [validate_ai_move] rejects it only when it ends on [ん], as seven
    words of the table do: the head, the script and the used set never
    fail for it. *)
Theorem fallback_word_validation
    (rnd : nat) (head : str) (used : gset str) (w : str) :
  _choose_fallback rnd head used = Some w ->
  to_hiragana w = w
  /\ validate_ai_move w head used
     = if violates_end_n w then (false, msg_ai_end_n) else (true, msg_OK).
Proof.
  intros Hw. apply _choose_fallback_some in Hw as [Hin Hfresh].
  destruct (FALLBACK_DICT !! head) as [words|] eqn:Hrow;
    [| by apply elem_of_nil in Hin].
  cbn [default from_option id] in Hin.
  destruct (fallback_word_shape head words w Hrow Hin)
    as (key & rest & -> & -> & Hkey & Hpure).
  pose proof (to_hiragana_pure _ Hpure) as Hnorm.
  split; [exact Hnorm |].
  unfold validate_ai_move. rewrite is_hiragana_only_normalized, Hnorm.
  apply script_pure_Forall in Hpure. rewrite Hpure.
  cbn [Py.truthy negb andb orb first_char head hd_error]. rewrite Hkey.
  rewrite (bool_decide_eq_false_2 ([key] ≠ [key])) by auto.
  by rewrite (bool_decide_eq_false_2 _ Hfresh).
Qed.

(** With [きつね] and [きのこ] used, the head [き] gives [きりん], which
    is rejected for its tail. *)
Lemma fallback_word_validation_witness :
  to_hiragana [0x304D; 0x308A; 0x3093] = [0x304D; 0x308A; 0x3093]
  /\ validate_ai_move [0x304D; 0x308A; 0x3093] [0x304D]
       ({[ [0x304D; 0x3064; 0x306D] ]} ∪ {[ [0x304D; 0x306E; 0x3053] ]})
     = (false, msg_ai_end_n).
Proof.
  apply (fallback_word_validation 0%nat [0x304D]
           ({[ [0x304D; 0x3064; 0x306D] ]} ∪ {[ [0x304D; 0x306E; 0x3053] ]})).
  vm_compute. reflexivity.
Defined.

(** ** The generative service *)

Lemma split_from_space_end (cur : option str) (s : str) (sp : Z) :
  Py.isspace sp = true ->
  Py.split_from cur (s ++ [sp]) = Py.split_from cur s.
Proof.
  intros Hsp. revert cur. induction s as [|ch s IH]; intros cur.
  - simpl. rewrite Hsp. by destruct cur.
  - simpl. destruct (Py.isspace ch); [destruct cur |]; by rewrite IH.
Qed.

Lemma split_from_spaces_end (cur : option str) (s sps : str) :
  Forall (fun ch => Py.isspace ch = true) sps ->
  Py.split_from cur (s ++ sps) = Py.split_from cur s.
Proof.
  induction sps as [|sp sps IH] using rev_ind; intros Hsps.
  - by rewrite app_nil_r.
  - apply Forall_app in Hsps as [Hsps Hsp]. inversion Hsp; subst.
    rewrite app_assoc, split_from_space_end by assumption. by apply IH.
Qed.

Lemma lstrip_spaces (s : str) :
  exists sps,
    Forall (fun ch => Py.isspace ch = true) sps /\ s = sps ++ Py.lstrip s.
Proof.
  induction s as [|ch s (sps & Hsps & Hs)].
  - exists []. by split.
  - simpl. destruct (Py.isspace ch) eqn:Hch.
    + exists (ch :: sps). split; [by constructor |]. simpl. by f_equal.
    + exists []. by split.
Qed.

Lemma split_lstrip (s : str) : Py.split (Py.lstrip s) = Py.split s.
Proof.
  unfold Py.split. induction s as [|ch s IH]; [reflexivity |].
  simpl. destruct (Py.isspace ch) eqn:Hch; [exact IH |].
  simpl. by rewrite Hch.
Qed.

Lemma split_rstrip (s : str) : Py.split (Py.rstrip s) = Py.split s.
Proof.
  unfold Py.rstrip.
  destruct (lstrip_spaces (rev s)) as (sps & Hsps & Hs).
  apply (f_equal (@rev Z)) in Hs. rewrite rev_involutive, rev_app_distr in Hs.
  rewrite Hs at 2. unfold Py.split. rewrite split_from_spaces_end;
    [reflexivity |].
  by apply Forall_rev.
Qed.

Lemma split_strip (s : str) : Py.split (Py.strip s) = Py.split s.
Proof. unfold Py.strip. by rewrite split_rstrip, split_lstrip. Qed.

Lemma split_from_tokens (cur : option str) (s : str) :
  (forall w, cur = Some w ->
             w <> [] /\ Forall (fun ch => Py.isspace ch = false) w) ->
  Forall (fun tok => tok <> []
                     /\ Forall (fun ch => Py.isspace ch = false) tok)
    (Py.split_from cur s).
Proof.
  revert cur. induction s as [|ch s IH]; intros cur Hcur.
  - simpl. destruct cur as [w|]; [| constructor].
    constructor; [by apply Hcur | constructor].
  - simpl. destruct (Py.isspace ch) eqn:Hch.
    + destruct cur as [w|].
      * constructor; [by apply Hcur |]. apply IH. discriminate.
      * apply IH. discriminate.
    + apply IH. intros w [= <-]. split; [by destruct cur as [[|]|] |].
      apply Forall_app. split; [| by repeat constructor].
      destruct cur as [w|]; [by apply Hcur | constructor].
Qed.

Lemma split_from_some_not_nil (w s : str) : Py.split_from (Some w) s <> [].
Proof.
  revert w. induction s as [|ch s IH]; intros w; simpl; [discriminate |].
  destruct (Py.isspace ch); [discriminate | apply IH].
Qed.

Lemma split_nil_strip (s : str) : Py.split s = [] -> Py.strip s = [].
Proof.
  intros Hs. assert (Py.lstrip s = []) as Hl.
  { unfold Py.split in Hs. induction s as [|ch s IH]; [reflexivity |].
    simpl in *. destruct (Py.isspace ch); [by apply IH |].
    by apply split_from_some_not_nil in Hs. }
  unfold Py.strip, Py.rstrip. by rewrite Hl.
Qed.

Lemma strip_token (tok : str) :
  Forall (fun ch => Py.isspace ch = false) tok -> Py.strip tok = tok.
Proof.
  assert (forall t, Forall (fun ch => Py.isspace ch = false) t ->
                    Py.lstrip t = t) as Hl.
  { intros t Ht. destruct Ht as [|ch t Hch _]; [reflexivity |].
    simpl. by rewrite Hch. }
  intros Htok. unfold Py.strip, Py.rstrip. rewrite (Hl tok Htok).
  rewrite Hl; [apply rev_involutive |]. by apply Forall_rev.
Qed.

(** [_gemini_generate] gives nothing when the service is not configured,
    raises, or has no text; otherwise it gives the first run of
    characters of the text that are not white space (the empty string
    for a text of white space only).  A candidate never contains white
    space. *)
Theorem _gemini_generate_first_token
    (cfg : bool) (gen : nat -> GenReply) (required_head : str)
    (used : gset str) (last_word : option str) (calls : nat) :
  fst (_gemini_generate cfg gen required_head used last_word calls)
  = (if cfg
     then match gen calls with
          | GenText (Some text) =>
              if Py.truthy text
              then Some (default [] (head (Py.split text)))
              else None
          | _ => None
          end
     else None)
  /\ (forall candidate,
        fst (_gemini_generate cfg gen required_head used last_word calls)
        = Some candidate ->
        Forall (fun ch => Py.isspace ch = false) candidate).
Proof.
  assert (fst (_gemini_generate cfg gen required_head used last_word calls)
          = (if cfg
             then match gen calls with
                  | GenText (Some text) =>
                      if Py.truthy text
                      then Some (default [] (head (Py.split text)))
                      else None
                  | _ => None
                  end
             else None)) as Heq.
  { unfold _gemini_generate. destruct cfg; [| reflexivity]. cbn [negb].
    unfold bind, call_generate_content.
    destruct (gen calls) as [|[text|]]; [reflexivity | | reflexivity].
    cbn [Py.truthy_opt fmap option_fmap option_map].
    destruct (Py.truthy text) eqn:Htext; [| reflexivity].
    cbn [Py.truthy_opt default from_option id].
    rewrite split_strip.
    destruct (Py.truthy (Py.strip text)) eqn:Hstrip.
    - destruct (Py.split text) as [|tok toks] eqn:Hsplit.
      + apply split_nil_strip in Hsplit. rewrite Hsplit in Hstrip.
        discriminate.
      + cbn. pose proof (split_from_tokens None text) as Htoks.
        fold (Py.split text) in Htoks. rewrite Hsplit in Htoks.
        apply Forall_cons in Htoks as [[_ Htok] _]; [| discriminate].
        by rewrite (strip_token tok Htok).
    - cbn. destruct (Py.strip text) as [|] eqn:Hs; [| discriminate].
      rewrite <- split_strip, Hs. reflexivity. }
  split; [exact Heq |].
  intros candidate. rewrite Heq. destruct cfg; [| discriminate].
  destruct (gen calls) as [|[text|]]; try discriminate.
  destruct (Py.truthy text); [| discriminate].
  intros [= <-]. pose proof (split_from_tokens None text) as Htoks.
  fold (Py.split text) in Htoks.
  destruct (Py.split text) as [|tok toks]; [constructor |].
  apply Forall_cons in Htoks as [[_ Htok] _]; [exact Htok | discriminate].
Qed.

(** The text [ abc def] gives the candidate [abc]. *)
Lemma _gemini_generate_first_token_witness :
  fst (_gemini_generate true
         (fun _ => GenText (Some [0x0020; 0x0061; 0x0062; 0x0063; 0x0020;
                                  0x0064; 0x0065; 0x0066]))
         [0x3053] ∅ None 0%nat)
  = Some [0x0061; 0x0062; 0x0063]
  /\ Forall (fun ch => Py.isspace ch = false) [0x0061; 0x0062; 0x0063].
Proof.
  split; [vm_compute; reflexivity |].
  apply (proj2 (_gemini_generate_first_token true
                  (fun _ => GenText (Some [0x0020; 0x0061; 0x0062; 0x0063;
                                           0x0020; 0x0064; 0x0065; 0x0066]))
                  [0x3053] ∅ None 0%nat)).
  vm_compute. reflexivity.
Defined.

(** ** The handler *)

Lemma validate_user_move_fresh
    (raw : str) (expected_head : option str) (used : gset str) :
  fst (validate_user_move raw expected_head used) = true ->
  to_hiragana raw <> [] /\ to_hiragana raw ∉ used.
Proof.
  unfold validate_user_move.
  destruct (to_hiragana raw) as [|c w'] eqn:Hw; [discriminate |].
  cbn [Py.truthy negb].
  destruct (is_hiragana_only (c :: w')); cbn [negb]; [| discriminate].
  destruct (decide (c :: w' ∈ used)) as [Hin|Hin].
  - rewrite (bool_decide_eq_true_2 _ Hin). discriminate.
  - intros _. by split.
Qed.

Lemma validate_ai_move_true
    (raw : str) (required_head : str) (used : gset str) :
  fst (validate_ai_move raw required_head used) = true ->
  to_hiragana raw <> []
  /\ is_hiragana_only (to_hiragana raw) = true
  /\ (to_hiragana raw ∉ used)
  /\ violates_end_n (to_hiragana raw) = false
  /\ exists ch, head (to_hiragana raw) = Some ch
                /\ required_head = [small_to_large ch].
Proof.
  unfold validate_ai_move.
  destruct (to_hiragana raw) as [|c w'] eqn:Hw; [discriminate |].
  cbn [Py.truthy negb orb first_char head].
  destruct (is_hiragana_only (c :: w')); cbn [negb]; [| discriminate].
  destruct (decide ([small_to_large c] = required_head)) as [He|He].
  2: { rewrite (bool_decide_eq_true_2 ([small_to_large c] ≠ required_head))
         by exact He. discriminate. }
  rewrite (bool_decide_eq_false_2 ([small_to_large c] ≠ required_head))
    by auto.
  destruct (decide (c :: w' ∈ used)) as [Hin|Hin].
  { rewrite (bool_decide_eq_true_2 _ Hin). discriminate. }
  rewrite (bool_decide_eq_false_2 _ Hin).
  destruct (violates_end_n (c :: w')); [discriminate |].
  intros _. repeat split; try done. exists c. by split.
Qed.

Lemma turn_count_after_exchange (history : list str) (w a : str) :
  _turn_count_from_history ((history ++ [w]) ++ [a])
  = _turn_count_from_history history + 1.
Proof.
  unfold _turn_count_from_history. rewrite !length_app. cbn [length].
  replace (Z.of_nat (length history + 1 + 1) + 1)
    with (Z.of_nat (length history) + 1 + 1 * 2) by lia.
  by rewrite Z.div_add.
Qed.

(** The response of a completed exchange. *)
Lemma resolve_exchange_valid
    (history : list str) (used : gset str) (turns : Z)
    (w_user head word : str) :
  Py.truthy word = true ->
  fst (validate_ai_move word head used) = true ->
  resolve_exchange history used turns w_user head (Some word)
  = let after := _turn_count_from_history (history ++ [word]) in
    Returned {| ok := true;
                message := if MAX_TURNS <=? after then msg_end
                           else msg_next (next_required_head word);
                user_word := Some w_user; ai_word := Some word;
                next_head_for_user := next_required_head word;
                used := elements (used ∪ {[word]});
                turn_count := after;
                game_over := MAX_TURNS <=? after;
                winner := if MAX_TURNS <=? after then Some winner_none
                          else None |}.
Proof.
  intros Hword Hok. unfold resolve_exchange.
  cbn [Py.truthy_opt default from_option id]. rewrite Hword. cbn [negb].
  destruct (validate_ai_move word head used) as [ok_ai msg_ai].
  simpl in Hok. subst ok_ai. cbn [negb]. cbv zeta.
  by destruct (MAX_TURNS <=? _).
Qed.

(** The four ways a request ends. *)
Lemma ai_move_outcomes cfg gen rnd req calls :
  let history := retained_history (req_history req) in
  let used0 : gset str := list_to_set history in
  let turns := _turn_count_from_history history in
  let w_user := to_hiragana (req_user_word req) in
  let verdict :=
    validate_user_move (req_user_word req) (expected_head_of history) used0 in
  (MAX_TURNS <= turns
   /\ ai_move cfg gen rnd req calls
      = (Returned {| ok := false; message := msg_round_limit;
                     user_word := None; ai_word := None;
                     next_head_for_user := None; used := elements used0;
                     turn_count := turns;
                     game_over := true; winner := Some winner_none |},
         calls))
  \/ (turns < MAX_TURNS /\ fst verdict = false
      /\ ai_move cfg gen rnd req calls
         = (Returned {| ok := false; message := snd verdict;
                        user_word := Some w_user; ai_word := None;
                        next_head_for_user := None; used := elements used0;
                        turn_count := turns + 1;
                        game_over := true; winner := Some winner_ai |},
            calls))
  \/ (turns < MAX_TURNS /\ fst verdict = true
      /\ next_required_head w_user = None
      /\ ai_move cfg gen rnd req calls
         = (HTTPException 400 msg_empty_word_detail, calls))
  \/ (turns < MAX_TURNS /\ fst verdict = true
      /\ exists head,
          next_required_head w_user = Some head
          /\ ai_move cfg gen rnd req calls
             = (resolve_exchange (history ++ [w_user]) (used0 ∪ {[w_user]})
                  turns w_user head
                  (fst (acquire_ai_word cfg gen rnd head
                          (used0 ∪ {[w_user]}) w_user calls)),
                snd (acquire_ai_word cfg gen rnd head
                       (used0 ∪ {[w_user]}) w_user calls))).
Proof.
  intros history used0 turns w_user verdict.
  destruct (Z.leb_spec MAX_TURNS turns) as [Hlim|Hlim].
  { left. split; [exact Hlim |]. by apply ai_move_round_limit. }
  right. subst verdict.
  destruct (validate_user_move _ _ _) as [[] msg] eqn:Hval.
  - right. rewrite (ai_move_accepted _ _ _ _ _ msg) by assumption.
    fold history used0 w_user.
    destruct (next_required_head w_user) as [head|].
    + right. split; [exact Hlim |]. split; [reflexivity |].
      exists head. split; [reflexivity |].
      by destruct (acquire_ai_word _ _ _ _ _ _ _).
    + left. by repeat split.
  - left. split; [exact Hlim |]. split; [reflexivity |].
    by apply ai_move_rejected.
Qed.

(** In every response: the winner is absent exactly when the game goes
    on; a response with ok false ends the game and carries no opponent
    word; the winner [ai] goes with ok false and the winner [user] with
    ok true; when the game goes on, the response has ok true, fewer than
    20 turns, the player's normalized word, an opponent word and the head
    computed from that word; the turn count is the one before the move
    at the round limit and one more otherwise. *)
Theorem ai_move_response_invariants cfg gen rnd req calls resp calls' :
  let turns :=
    _turn_count_from_history (retained_history (req_history req)) in
  ai_move cfg gen rnd req calls = (Returned resp, calls') ->
  (winner resp = None <-> game_over resp = false)
  /\ (ok resp = false ->
      game_over resp = true /\ ai_word resp = None
      /\ next_head_for_user resp = None)
  /\ (winner resp = Some winner_ai -> ok resp = false)
  /\ (winner resp = Some winner_user -> ok resp = true)
  /\ (game_over resp = false ->
      ok resp = true
      /\ turn_count resp < MAX_TURNS
      /\ user_word resp = Some (to_hiragana (req_user_word req))
      /\ exists word,
          ai_word resp = Some word
          /\ next_head_for_user resp = next_required_head word)
  /\ turn_count resp = (if MAX_TURNS <=? turns then turns else turns + 1).
Proof.
  intros turns Hrun.
  destruct (ai_move_outcomes cfg gen rnd req calls)
    as [[Hlim H]|[(Hlim & Hbad & H)|[(Hlim & Hok & Htail & H)
       |(Hlim & Hok & head & Htail & H)]]];
    rewrite H in Hrun; clear H; fold turns in Hlim |- *.
  - injection Hrun as <- _. cbn.
    destruct (Z.leb_spec MAX_TURNS turns); [| lia].
    repeat split; try done.
  - injection Hrun as <- _. cbn.
    destruct (Z.leb_spec MAX_TURNS turns); [lia |].
    repeat split; try done.
  - discriminate Hrun.
  - injection Hrun as Hres _.
    destruct (Z.leb_spec MAX_TURNS turns) as [|_]; [lia |].
    set (got := fst (acquire_ai_word _ _ _ _ _ _ _)) in Hres.
    destruct (Py.truthy_opt got) eqn:Hgot.
    2: { rewrite resolve_exchange_no_word in Hres by exact Hgot.
         injection Hres as <-. cbn. repeat split; try done. }
    destruct (fst (validate_ai_move (default [] got) head
                     (list_to_set (retained_history (req_history req))
                      ∪ {[to_hiragana (req_user_word req)]}))) eqn:Hai.
    2: { rewrite resolve_exchange_invalid in Hres by assumption.
         injection Hres as <-. cbn. repeat split; try done. }
    destruct got as [word|]; [| discriminate].
    cbn [default from_option id Py.truthy_opt] in *.
    rewrite resolve_exchange_valid in Hres by assumption.
    cbv zeta in Hres. rewrite turn_count_after_exchange in Hres.
    fold turns in Hres. injection Hres as <-. cbn.
    destruct (Z.leb_spec MAX_TURNS (turns + 1)).
    + repeat split; try done.
    + repeat split; try done. by exists word.
Qed.

(** After the raw entry [A], the word [ねこ] and the fallback's answer:
    second turn, the game goes on. *)
Lemma ai_move_response_invariants_witness :
  exists resp,
    ai_move false no_reply 0%nat req_after_latin 0%nat
    = (Returned resp, 0%nat)
    /\ turn_count resp = 2
    /\ (winner resp = None <-> game_over resp = false).
Proof.
  assert (exists resp,
             ai_move false no_reply 0%nat req_after_latin 0%nat
             = (Returned resp, 0%nat)) as [resp Hrun]
    by (eexists; vm_compute; reflexivity).
  exists resp. split; [exact Hrun |].
  destruct (ai_move_response_invariants _ _ _ _ _ _ _ Hrun)
    as (Hwinner & _ & _ & _ & _ & Hturn).
  split; [exact Hturn | exact Hwinner].
Defined.

(** The handler raises exactly in one case: below the round limit, the
    player's word passes the validation and is, once normalized, the
    single prolongation mark.  The status is then 400 and the service
    has not been called. *)
Theorem ai_move_raises_iff cfg gen rnd req calls status detail calls' :
  let history := retained_history (req_history req) in
  ai_move cfg gen rnd req calls = (HTTPException status detail, calls')
  <-> (_turn_count_from_history history < MAX_TURNS
       /\ fst (validate_user_move (req_user_word req)
                 (expected_head_of history) (list_to_set history)) = true
       /\ to_hiragana (req_user_word req) = [ch_prolong]
       /\ status = 400 /\ detail = msg_empty_word_detail /\ calls' = calls).
Proof.
  intros history. split.
  - intros Hrun.
    destruct (ai_move_outcomes cfg gen rnd req calls)
      as [[Hlim H]|[(Hlim & Hbad & H)|[(Hlim & Hok & Htail & H)
         |(Hlim & Hok & head & Htail & H)]]];
      rewrite H in Hrun; clear H; try discriminate Hrun.
    + injection Hrun as <- <- <-. fold history in Hlim, Hok.
      repeat split; try assumption.
      apply normalize_last_char_none_iff in Htail as [Hempty|Hmark];
        [| exact Hmark].
      by apply validate_user_move_fresh in Hok as [Hne _].
    + destruct (resolve_exchange_returns
                  (retained_history (req_history req)
                   ++ [to_hiragana (req_user_word req)])
                  (list_to_set (retained_history (req_history req))
                   ∪ {[to_hiragana (req_user_word req)]})
                  (_turn_count_from_history
                     (retained_history (req_history req)))
                  (to_hiragana (req_user_word req)) head
                  (fst (acquire_ai_word cfg gen rnd head
                          (list_to_set (retained_history (req_history req))
                           ∪ {[to_hiragana (req_user_word req)]})
                          (to_hiragana (req_user_word req)) calls)))
        as (resp & Hres & _).
      rewrite Hres in Hrun. discriminate Hrun.
  - intros (Hlim & Hok & Hmark & -> & -> & ->).
    destruct (validate_user_move _ _ _) as [ok_user msg] eqn:Hval.
    simpl in Hok. subst ok_user.
    rewrite (ai_move_accepted _ _ _ _ _ msg) by assumption.
    by rewrite Hmark.
Qed.

(** When the game goes on, the exchange added two new words: the
    player's normalized word was not in the history, the opponent's word,
    normalized, is neither in the history nor the player's word, it
    starts (small kana enlarged) with the tail of the player's word, it
    does not end on [ん], and the used list of the response is the
    history with the player's normalized word and the opponent's word as
    the service or the table gave it. *)
Theorem ai_move_exchange_adds_fresh_words
    cfg gen rnd req calls resp calls' :
  let history := retained_history (req_history req) in
  let w_user := to_hiragana (req_user_word req) in
  ai_move cfg gen rnd req calls = (Returned resp, calls') ->
  game_over resp = false ->
  exists required word,
    next_required_head w_user = Some required
    /\ user_word resp = Some w_user
    /\ ai_word resp = Some word
    /\ (w_user ∉ history)
    /\ (to_hiragana word ∉ history)
    /\ to_hiragana word <> w_user
    /\ (exists ch, head (to_hiragana word) = Some ch
                   /\ required = [small_to_large ch])
    /\ violates_end_n (to_hiragana word) = false
    /\ (forall x, x ∈ used resp <-> x ∈ history \/ x = w_user \/ x = word).
Proof.
  intros history w_user Hrun Hgo.
  destruct (ai_move_outcomes cfg gen rnd req calls)
    as [[Hlim H]|[(Hlim & Hbad & H)|[(Hlim & Hok & Htail & H)
       |(Hlim & Hok & head & Htail & H)]]];
    rewrite H in Hrun; clear H; try discriminate Hrun;
    try (injection Hrun as <- _; discriminate Hgo).
  injection Hrun as Hres _. fold history w_user in Hok, Htail, Hres.
  set (used1 := list_to_set history ∪ {[w_user]} : gset str) in *.
  set (got := fst (acquire_ai_word _ _ _ _ _ _ _)) in Hres.
  destruct (Py.truthy_opt got) eqn:Hgot.
  2: { rewrite resolve_exchange_no_word in Hres by exact Hgot.
       injection Hres as <-. discriminate Hgo. }
  destruct (fst (validate_ai_move (default [] got) head used1)) eqn:Hai.
  2: { rewrite resolve_exchange_invalid in Hres by assumption.
       injection Hres as <-. discriminate Hgo. }
  destruct got as [word|]; [| discriminate].
  cbn [default from_option id Py.truthy_opt] in *.
  rewrite resolve_exchange_valid in Hres by assumption.
  cbv zeta in Hres. injection Hres as <-. cbn in Hgo |- *.
  apply validate_user_move_fresh in Hok as [_ Hfresh].
  rewrite elem_of_list_to_set in Hfresh.
  apply validate_ai_move_true in Hai as (_ & _ & Hnew & Hend & Hhead).
  unfold used1 in Hnew. rewrite elem_of_union, elem_of_list_to_set,
    elem_of_singleton in Hnew.
  exists head, word. repeat split; try done.
  - intros Hin. apply Hnew. by left.
  - intros Heq. apply Hnew. by right.
  - rewrite elem_of_elements. unfold used1.
    rewrite !elem_of_union, elem_of_list_to_set, !elem_of_singleton. tauto.
  - rewrite elem_of_elements. unfold used1.
    rewrite !elem_of_union, elem_of_list_to_set, !elem_of_singleton. tauto.
Qed.

(** [ねこ] after the raw entry [A], answered by [ことり]. *)
Lemma ai_move_exchange_adds_fresh_words_witness :
  exists resp required word,
    ai_move false no_reply 0%nat req_after_latin 0%nat
    = (Returned resp, 0%nat)
    /\ next_required_head (to_hiragana (req_user_word req_after_latin))
       = Some required
    /\ ai_word resp = Some word
    /\ to_hiragana word <> to_hiragana (req_user_word req_after_latin).
Proof.
  assert (exists resp,
             ai_move false no_reply 0%nat req_after_latin 0%nat
             = (Returned resp, 0%nat) /\ game_over resp = false)
    as (resp & Hrun & Hgo)
    by (eexists; split; vm_compute; reflexivity).
  destruct (ai_move_exchange_adds_fresh_words _ _ _ _ _ _ _ Hrun Hgo)
    as (required & word & Htail & _ & Hword & _ & _ & Hne & _).
  exists resp, required, word. by repeat split.
Defined.

(** The used list of a response has no duplicates and contains every
    entry of the normalized history; when the response has ok false it is
    exactly the history (the rejected candidate is not added), and when
    it has ok true it contains the player's normalized word. *)
Theorem ai_move_used_list cfg gen rnd req calls resp calls' :
  let history := retained_history (req_history req) in
  ai_move cfg gen rnd req calls = (Returned resp, calls') ->
  NoDup (used resp)
  /\ (forall w, w ∈ history -> w ∈ used resp)
  /\ (ok resp = false -> forall w, w ∈ used resp <-> w ∈ history)
  /\ (ok resp = true -> to_hiragana (req_user_word req) ∈ used resp).
Proof.
  intros history Hrun.
  destruct (ai_move_outcomes cfg gen rnd req calls)
    as [[Hlim H]|[(Hlim & Hbad & H)|[(Hlim & Hok & Htail & H)
       |(Hlim & Hok & head & Htail & H)]]];
    rewrite H in Hrun; clear H; try discriminate Hrun.
  - injection Hrun as <- _. cbn. fold history.
    split; [apply NoDup_elements |].
    split; [intros w Hw; by apply elem_of_elements, elem_of_list_to_set |].
    split; [| discriminate].
    intros _ w. by rewrite elem_of_elements, elem_of_list_to_set.
  - injection Hrun as <- _. cbn. fold history.
    split; [apply NoDup_elements |].
    split; [intros w Hw; by apply elem_of_elements, elem_of_list_to_set |].
    split; [| discriminate].
    intros _ w. by rewrite elem_of_elements, elem_of_list_to_set.
  - injection Hrun as Hres _. fold history in Hres.
    set (w_user := to_hiragana (req_user_word req)) in *.
    set (used1 := list_to_set history ∪ {[w_user]} : gset str) in *.
    set (got := fst (acquire_ai_word _ _ _ _ _ _ _)) in Hres.
    destruct (Py.truthy_opt got) eqn:Hgot.
    2: { rewrite resolve_exchange_no_word in Hres by exact Hgot.
         injection Hres as <-. cbn.
         split; [apply NoDup_elements |].
         split; [| split; [discriminate |]].
         - intros w Hw. apply elem_of_elements, elem_of_union. left.
           by apply elem_of_list_to_set.
         - intros _. apply elem_of_elements, elem_of_union. right.
           by apply elem_of_singleton. }
    destruct (fst (validate_ai_move (default [] got) head used1)) eqn:Hai.
    2: { rewrite resolve_exchange_invalid in Hres by assumption.
         injection Hres as <-. cbn.
         split; [apply NoDup_elements |].
         split; [| split; [discriminate |]].
         - intros w Hw. apply elem_of_elements, elem_of_union. left.
           by apply elem_of_list_to_set.
         - intros _. apply elem_of_elements, elem_of_union. right.
           by apply elem_of_singleton. }
    destruct got as [word|]; [| discriminate].
    cbn [default from_option id Py.truthy_opt] in *.
    rewrite resolve_exchange_valid in Hres by assumption.
    cbv zeta in Hres. injection Hres as <-. cbn.
    split; [apply NoDup_elements |].
    split; [| split; [discriminate |]].
    + intros w Hw. apply elem_of_elements. unfold used1.
      rewrite !elem_of_union, elem_of_list_to_set. tauto.
    + intros _. apply elem_of_elements. unfold used1.
      rewrite !elem_of_union, elem_of_singleton. tauto.
Qed.

(** [めろん] is rejected and is not in the used list. *)
Lemma ai_move_used_list_witness :
  exists resp,
    ai_move false no_reply 0%nat req_melon 0%nat = (Returned resp, 0%nat)
    /\ NoDup (used resp)
    /\ (forall w, w ∈ used resp
                  <-> w ∈ retained_history (req_history req_melon)).
Proof.
  assert (exists resp,
             ai_move false no_reply 0%nat req_melon 0%nat
             = (Returned resp, 0%nat) /\ ok resp = false)
    as (resp & Hrun & Hok)
    by (eexists; split; vm_compute; reflexivity).
  destruct (ai_move_used_list _ _ _ _ _ _ _ Hrun) as (Hnodup & _ & Hsame & _).
  exists resp. split; [exact Hrun |]. split; [exact Hnodup |].
  by apply Hsame.
Defined.

(** The service is called only when it is configured, the round limit
    is not reached, the player's word passes the validation and has a
    tail; it is then called once or twice, and twice only after a first
    candidate that was present and failed [validate_ai_move]. *)
Theorem ai_move_service_calls cfg gen rnd req calls :
  let history := retained_history (req_history req) in
  let w_user := to_hiragana (req_user_word req) in
  let calls' := snd (ai_move cfg gen rnd req calls) in
  (calls' <> calls ->
   cfg = true
   /\ _turn_count_from_history history < MAX_TURNS
   /\ fst (validate_user_move (req_user_word req)
             (expected_head_of history) (list_to_set history)) = true
   /\ exists head,
       next_required_head w_user = Some head
       /\ (calls' = S calls \/ calls' = S (S calls))
       /\ (calls' = S (S calls) ->
           let first :=
             fst (_gemini_generate cfg gen head
                    (list_to_set history ∪ {[w_user]}) (Some w_user) calls) in
           Py.truthy_opt first = true
           /\ fst (validate_ai_move (default [] first) head
                     (list_to_set history ∪ {[w_user]})) = false)).
Proof.
  intros history w_user calls' Hcalls. subst calls'.
  assert (forall h (u : gset str) lw n,
             snd (_gemini_generate cfg gen h u lw n)
             = if cfg then S n else n) as Hgen.
  { intros h u lw n. unfold _gemini_generate.
    destruct cfg; [| reflexivity]. cbn [negb].
    unfold bind, call_generate_content.
    destruct (gen n) as [|text]; [reflexivity |].
    destruct (Py.truthy_opt _); [| reflexivity].
    by destruct (hd_error _). }
  destruct (ai_move_outcomes cfg gen rnd req calls)
    as [[Hlim H]|[(Hlim & Hbad & H)|[(Hlim & Hok & Htail & H)
       |(Hlim & Hok & head & Htail & H)]]];
    rewrite H in Hcalls |- *; clear H; try (cbn in Hcalls; congruence).
  fold history w_user in Hlim, Hok, Htail, Hcalls |- *.
  cbn [snd] in Hcalls |- *.
  set (used1 := list_to_set history ∪ {[w_user]} : gset str) in *.
  pose proof (acquire_ai_word_cases cfg gen rnd head used1 w_user calls)
    as Hcases.
  cbv zeta in Hcases. rewrite Hcases in Hcalls |- *. clear Hcases.
  rewrite !Hgen in Hcalls |- *.
  destruct cfg.
  2: { exfalso. apply Hcalls.
       destruct (Py.truthy_opt _); [| reflexivity].
       by destruct (fst (validate_ai_move _ _ _)). }
  split; [reflexivity |]. split; [exact Hlim |]. split; [exact Hok |].
  exists head. split; [exact Htail |].
  destruct (Py.truthy_opt (fst (_gemini_generate true gen head used1
                                  (Some w_user) calls))) eqn:H1.
  2: { cbn [snd]. split; [by left |]. intros Hc. cbn in Hc. lia. }
  destruct (fst (validate_ai_move _ head used1)) eqn:Hv.
  - rewrite Hgen. split; [by left |]. intros Hc. lia.
  - cbn [snd]. split; [by right |]. intros _. by split.
Qed.

(** [かが] with a service that answers [abc]: two calls, the first
    candidate was invalid. *)
Lemma ai_move_service_calls_witness :
  snd (ai_move true reply_latin 0%nat req_kaga 0%nat) = 2%nat
  /\ _turn_count_from_history (retained_history (req_history req_kaga))
     < MAX_TURNS.
Proof.
  split; [vm_compute; reflexivity |].
  apply (ai_move_service_calls true reply_latin 0%nat req_kaga 0%nat).
  vm_compute. discriminate.
Defined.

(** The head announced with an opponent word that is already normalized
    (as every word of the fallback table is) is the head the next request
    requires once that word ends the history.  For a word of the service
    that is valid only after normalization the two can differ: [ことり!]
    is accepted for the head [こ], the head announced is [!], the head
    required next is [り]. *)
Theorem announced_head_is_enforced :
  (forall (raw : list str) (word : str),
      word <> [] ->
      to_hiragana word = word ->
      expected_head_of (retained_history (raw ++ [word]))
      = next_required_head word)
  /\ (exists (word required : str),
        fst (validate_ai_move word required ∅) = true
        /\ expected_head_of (retained_history [word])
           <> next_required_head word).
Proof.
  split.
  - intros raw word Hne Hnorm. unfold retained_history.
    rewrite filter_app, fmap_app, filter_cons_True by (by destruct word).
    rewrite filter_nil. cbn [fmap list_fmap]. rewrite Hnorm.
    unfold expected_head_of. by rewrite last_snoc.
  - exists [0x3053; 0x3068; 0x308A; 0x0021], [0x3053].
    split; [vm_compute; reflexivity |]. vm_compute. discriminate.
Qed.

(** After [ねこ] and [ことり] the next head is [り]. *)
Lemma announced_head_is_enforced_witness :
  expected_head_of (retained_history ([[0x306D; 0x3053]]
                                      ++ [[0x3053; 0x3068; 0x308A]]))
  = next_required_head [0x3053; 0x3068; 0x308A].
Proof.
  apply (proj1 announced_head_is_enforced); [discriminate | reflexivity].
Defined.

(** [summarize_history] is empty for no word and the word itself for one
    word; over two non-empty lists it is the two summaries with the
    arrow between them; its length is the total length of the words plus
    three for each arrow. *)
Theorem summarize_history_concat :
  summarize_history [] = []
  /\ (forall w, summarize_history [w] = w)
  /\ (forall ws1 ws2,
        ws1 <> [] -> ws2 <> [] ->
        summarize_history (ws1 ++ ws2)
        = summarize_history ws1 ++ arrow_sep ++ summarize_history ws2)
  /\ (forall ws,
        ws <> [] ->
        length (summarize_history ws)
        = (length (concat ws) + 3 * (length ws - 1))%nat).
Proof.
  split; [reflexivity |]. split; [reflexivity |].
  assert (forall w ws, ws <> [] ->
            summarize_history (w :: ws)
            = w ++ arrow_sep ++ summarize_history ws) as Hcons.
  { intros w [|w' ws] Hne; [contradiction | reflexivity]. }
  split.
  - intros ws1 ws2 Hne1 Hne2. induction ws1 as [|w ws1 IH]; [contradiction |].
    destruct ws1 as [|w' ws1].
    + simpl app. by rewrite Hcons.
    + change ((w :: w' :: ws1) ++ ws2) with (w :: ((w' :: ws1) ++ ws2)).
      rewrite Hcons by discriminate. rewrite IH by discriminate.
      rewrite (Hcons w (w' :: ws1)) by discriminate.
      by rewrite <- !app_assoc.
  - intros ws Hne. induction ws as [|w ws IH]; [contradiction |].
    destruct ws as [|w' ws].
    + change (summarize_history [w]) with w. cbn [concat length].
      rewrite app_nil_r. lia.
    + rewrite Hcons by discriminate. rewrite !length_app, IH by discriminate.
      change (concat (w :: w' :: ws)) with (w ++ concat (w' :: ws)).
      rewrite length_app. unfold arrow_sep. cbn [length]. lia.
Qed.

(** [ねこ → ことり] *)
Lemma summarize_history_concat_witness :
  summarize_history ([[0x306D; 0x3053]] ++ [[0x3053; 0x3068; 0x308A]])
  = [0x306D; 0x3053; 0x0020; 0x2192; 0x0020; 0x3053; 0x3068; 0x308A]
  /\ length (summarize_history [[0x306D; 0x3053]; [0x3053; 0x3068; 0x308A]])
     = 8%nat.
Proof.
  destruct summarize_history_concat as (_ & _ & Happ & Hlen).
  split.
  - rewrite Happ by discriminate. reflexivity.
  - rewrite Hlen by discriminate. reflexivity.
Defined.
